(** * dependency-chatbot: the reasoning core of [app.py]

    A shallow embedding of the version comparator, the table lookups, the
    compatibility checker, the explanation composer and the submit handler
    of [src/app.py], followed by the properties stated about them.

    Representation.  A Python [str] is a [string]: the sequence of the
    bytes of its UTF-8 encoding.  Concatenation, equality, [split('.')],
    [', '.join] and the substring test [in] act on that encoding exactly
    as they act on the text.  [str.lower] and [int] are modelled exactly
    on ASCII text (code points below 128); characters outside ASCII are
    left unchanged by [lower] and refused by [py_int], although Python
    lower-cases non-ASCII letters and [int] also reads non-ASCII decimal
    digits and spaces.  Python integers are [Z].  A [dict] is an
    association list in insertion order, which is the order Python
    iterates it in. *)

From Stdlib Require Import ZArith List String Ascii Bool Lia.
Import ListNotations.

Local Open Scope string_scope.
Local Open Scope Z_scope.

(** ** Python built-ins used by the program *)

Module Py.

(** A small error monad: [None] is a raised exception. *)
Definition bind {A B : Type} (m : option A) (k : A -> option B) : option B :=
  match m with
  | Some a => k a
  | None => None
  end.

Notation "x <- m ;; k" := (bind m (fun x => k))
  (at level 61, m at next level, right associativity).
Notation "' p <- m ;; k" := (bind m (fun p => k))
  (at level 61, p pattern, m at next level, right associativity).

(** [try: ... except: return d] *)
Definition try_except {A : Type} (m : option A) (d : A) : A :=
  match m with
  | Some a => a
  | None => d
  end.

(** [bool(s)] for a string: non-empty. *)
Definition truthy (s : string) : bool :=
  match s with
  | EmptyString => false
  | String _ _ => true
  end.

(** [bool(l)] for a list: non-empty. *)
Definition nonempty {A : Type} (l : list A) : bool :=
  match l with
  | [] => false
  | _ :: _ => true
  end.

(** [l.append(x)], as the new list *)
Definition list_append {A : Type} (l : list A) (x : A) : list A := (l ++ [x])%list.

(** *** Dictionaries *)

Definition dict (V : Type) : Type := list (string * V).

(** [d.get(k)]: [None] when the key is absent. *)
Fixpoint get {V : Type} (d : dict V) (k : string) : option V :=
  match d with
  | [] => None
  | (k', v) :: d' => if String.eqb k k' then Some v else get d' k
  end.

(** [d.get(k, default)] *)
Definition get_default {V : Type} (d : dict V) (k : string) (default : V) : V :=
  match get d k with
  | Some v => v
  | None => default
  end.

(** *** [str.lower], on ASCII letters *)

Definition lower_char (c : ascii) : ascii :=
  let n := nat_of_ascii c in
  if (Nat.leb 65 n && Nat.leb n 90)%bool then ascii_of_nat (n + 32) else c.

Fixpoint lower (s : string) : string :=
  match s with
  | EmptyString => EmptyString
  | String c s' => String (lower_char c) (lower s')
  end.

(** *** [needle in haystack] for strings *)

Fixpoint contains (needle haystack : string) : bool :=
  if String.prefix needle haystack then true
  else match haystack with
       | EmptyString => false
       | String _ h' => contains needle h'
       end.

(** *** [sep.join(l)] *)

Fixpoint join (sep : string) (l : list string) : string :=
  match l with
  | [] => ""
  | [x] => x
  | x :: l' => x ++ sep ++ join sep l'
  end.

(** *** [s.split('.')]: never empty, one more part than there are dots *)

Fixpoint split_parts (s : string) : string * list string :=
  match s with
  | EmptyString => ("", [])
  | String c s' =>
      let (h, t) := split_parts s' in
      if Ascii.eqb c "." then ("", h :: t) else (String c h, t)
  end.

Definition split_dot (s : string) : list string :=
  let (h, t) := split_parts s in h :: t.

(** *** [int(s)] in base 10

    CPython's [PyLong_FromString]: leading whitespace, one optional sign,
    decimal digits with single underscores between digits, trailing
    whitespace, nothing else.  Since CPython 3.11 a literal of more than
    [int_max_str_digits] digits (4300 unless reconfigured) raises
    [ValueError] too. *)

Definition is_space (c : ascii) : bool :=
  let n := nat_of_ascii c in
  ((Nat.leb 9 n && Nat.leb n 13) || Nat.eqb n 32)%bool.

Definition is_digit (c : ascii) : bool :=
  let n := nat_of_ascii c in (Nat.leb 48 n && Nat.leb n 57)%bool.

Definition digit_value (c : ascii) : Z := Z.of_nat (nat_of_ascii c) - 48.

Definition int_max_str_digits : nat := 4300.

Fixpoint lstrip (s : string) : string :=
  match s with
  | String c s' => if is_space c then lstrip s' else s
  | EmptyString => EmptyString
  end.

Fixpoint all_space (s : string) : bool :=
  match s with
  | String c s' => (is_space c && all_space s')%bool
  | EmptyString => true
  end.

(** The digit loop: the value read so far, the number of digits, whether
    the previous character was an underscore; stops at the first character
    that is neither, and fails on a doubled or trailing underscore. *)
Fixpoint scan_digits (s : string) (acc : Z) (digits : nat) (prev_us : bool)
  : option (Z * nat * string) :=
  match s with
  | String c s' =>
      if is_digit c then scan_digits s' (10 * acc + digit_value c) (S digits) false
      else if Ascii.eqb c "_" then
             if prev_us then None else scan_digits s' acc digits true
      else if prev_us then None else Some (acc, digits, s)
  | EmptyString => if prev_us then None else Some (acc, digits, EmptyString)
  end.

Definition py_int (s : string) : option Z :=
  let s1 := lstrip s in
  let '(sign, s2) :=
    match s1 with
    | String "+" r => (1, r)
    | String "-" r => (-1, r)
    | _ => (1, s1)
    end in
  match s2 with
  | String "_" _ => None
  | _ =>
      '(v, digits, rest) <- scan_digits s2 0 0 false ;;
      if Nat.eqb digits 0 then None
      else if Nat.ltb int_max_str_digits digits then None
      else if all_space rest then Some (sign * v)
      else None
  end.

End Py.

Import Py.

(** ** Helper functions of [app.py] *)

(** [int(parts[i]) if len(parts) > i else 0] *)
Definition int_part (parts : list string) (i : nat) : option Z :=
  match nth_error parts i with
  | Some p => py_int p
  | None => Some 0
  end.

Definition parse_version (version : string) : Z * Z * Z :=
  try_except
    (let parts := split_dot version in
     major <- int_part parts 0 ;;
     minor <- int_part parts 1 ;;
     patch <- int_part parts 2 ;;
     Some (major, minor, patch))
    (0, 0, 0).

Definition get_bump_type (old_version new_version : string) : string :=
  let '(old0, old1, old2) := parse_version old_version in
  let '(new0, new1, new2) := parse_version new_version in
  if new0 >? old0 then "major"
  else if new1 >? old1 then "minor"
  else if new2 >? old2 then "patch"
  else "unknown".

(** ** Mock data structures *)

(** Release metadata: package -> version -> metadata *)
Module Meta.
Record t : Type := mk { notes : string; bump_type : string; release_date : string }.
End Meta.

Definition RELEASE_METADATA : dict (dict Meta.t) :=
  [ ("auth-lib",
     [ ("2.1.0", Meta.mk
          "Security patches for token validation. Performance improvements in JWT parsing."
          "minor" "2024-01-15");
       ("2.2.0", Meta.mk
          "Added OAuth2 refresh token support. Fixed memory leak in session management."
          "minor" "2024-02-20");
       ("3.0.0", Meta.mk
          "BREAKING: Removed deprecated API endpoints. New authentication flow required. Migration guide available."
          "major" "2024-03-10") ]);
    ("payments-core",
     [ ("3.1.0", Meta.mk
          "Bug fixes for currency conversion edge cases. Improved error handling."
          "minor" "2024-01-22");
       ("3.2.0", Meta.mk
          "Added support for new payment methods. Enhanced transaction logging."
          "minor" "2024-02-05");
       ("4.0.0", Meta.mk
          "BREAKING: New payment gateway integration. API signature changes. Requires database migration."
          "major" "2024-03-18") ]);
    ("logging-lib",
     [ ("1.5.0", Meta.mk
          "Fixed log rotation issue. Added structured logging support."
          "minor" "2024-01-10");
       ("1.5.1", Meta.mk
          "Critical bug fix for log file corruption under high load."
          "patch" "2024-01-25");
       ("2.0.0", Meta.mk
          "BREAKING: Changed default log format. New configuration schema required."
          "major" "2024-02-28") ]) ].

(** Known issues: package -> version -> issues *)
Definition KNOWN_ISSUES : dict (dict (list string)) :=
  [ ("auth-lib",
     [ ("2.0.0", ["CVE-2024-001: Token validation bypass vulnerability"]);
       ("2.0.5", ["CVE-2024-001: Token validation bypass vulnerability"]);
       ("2.1.0", []) ]);
    ("payments-core",
     [ ("3.0.0", ["CVE-2024-002: Potential race condition in transaction processing"]);
       ("3.1.0", []) ]);
    ("logging-lib",
     [ ("1.4.0", ["CVE-2024-003: Log injection vulnerability"]);
       ("1.5.0", []) ]) ].

(** Internal incidents: package -> version -> incidents *)
Definition INTERNAL_INCIDENTS : dict (dict (list string)) :=
  [ ("payments-core",
     [ ("3.2.0", ["Incident #142: Memory leak detected in production. Root cause: improper resource cleanup in transaction handler."]) ]);
    ("auth-lib",
     [ ("2.0.0", ["Incident #89: Authentication failures during peak load. Resolved in 2.1.0."]) ]);
    ("logging-lib",
     [ ("1.4.5", ["Incident #156: Log file corruption causing service restarts. Fixed in 1.5.1."]) ]) ].

(** Compatibility matrix: service -> package -> version *)
Definition COMPATIBILITY_MATRIX : dict (dict string) :=
  [ ("Checkout Service",
     [ ("payments-core", "3.2.0"); ("auth-lib", "2.2.0"); ("logging-lib", "1.5.1") ]);
    ("User Service",
     [ ("auth-lib", "3.0.0"); ("logging-lib", "2.0.0") ]);
    ("API Gateway",
     [ ("auth-lib", "2.2.0"); ("logging-lib", "1.5.1") ]) ].

(** ** Lookups *)

Definition check_security_issues (package old_version new_version : string)
  : list string * list string :=
  let old_issues := get_default (get_default KNOWN_ISSUES package []) old_version [] in
  let new_issues := get_default (get_default KNOWN_ISSUES package []) new_version [] in
  (old_issues, new_issues).

Definition check_internal_incidents (package old_version new_version : string)
  : list string * list string :=
  let old_incidents := get_default (get_default INTERNAL_INCIDENTS package []) old_version [] in
  let new_incidents := get_default (get_default INTERNAL_INCIDENTS package []) new_version [] in
  (old_incidents, new_incidents).

(** ** Compatibility checker *)

Record compat_info : Type :=
  { compatible : list string; incompatible : list string }.

(** The loop under [if context:], over the services still to visit.  It
    leaves at the first service whose lower-cased name occurs in the
    lower-cased context ([break]), whether or not the service uses the
    package. *)
Fixpoint context_scan (services : dict (dict string)) (package context_lower : string)
    (compatible_services : list string) : list string :=
  match services with
  | [] => compatible_services
  | (service_name, packages) :: rest =>
      if contains (lower service_name) context_lower then
        match get packages package with
        | Some service_version =>
            list_append compatible_services (service_name ++ " uses " ++ service_version)
        | None => compatible_services
        end
      else context_scan rest package context_lower compatible_services
  end.

(** One iteration of the loop under [# Check all services]. *)
Definition scan_service (package new_version : string)
    (lists : list string * list string) (item : string * dict string)
  : list string * list string :=
  let '(compatible_services, incompatible_services) := lists in
  let '(service_name, packages) := item in
  match get packages package with
  | Some service_version =>
      let '(new0, _, _) := parse_version new_version in
      let '(service0, _, _) := parse_version service_version in
      if new0 =? service0 then
        (list_append compatible_services (service_name ++ " uses " ++ service_version),
         incompatible_services)
      else if new0 >? service0 then
        (compatible_services,
         list_append incompatible_services
           (service_name ++ " uses " ++ service_version ++ " (major version mismatch)"))
      else lists
  | None => lists
  end.

Definition full_scan (services : dict (dict string)) (package new_version : string)
    (lists : list string * list string) : list string * list string :=
  fold_left (scan_service package new_version) services lists.

Definition check_compatibility (package new_version : string) (context : option string)
  : compat_info :=
  let compatible_services :=
    match context with
    | Some c =>
        if truthy c
        then context_scan COMPATIBILITY_MATRIX package (lower c) []
        else []
    | None => []
    end in
  let '(compatible_services, incompatible_services) :=
    full_scan COMPATIBILITY_MATRIX package new_version (compatible_services, []) in
  {| compatible := compatible_services; incompatible := incompatible_services |}.

(** ** Main reasoning function *)

Record explanation : Type :=
  { summary : string;
    risk_reasoning : list string;
    security_reasoning : list string;
    compatibility_reasoning : list string;
    release_notes : string;
    bump_type : string;
    sources : list string }.

Definition no_release_notes : string := "No release notes available.".

(** [# Build sources list] *)
Definition build_sources (package old_version new_version release_notes : string)
    (old_security_issues old_incidents : list string) (compat_info : compat_info)
  : list string :=
  let sources := [] in
  let sources :=
    if negb (String.eqb release_notes no_release_notes)
    then list_append sources ("Release notes for " ++ package ++ " " ++ new_version)
    else sources in
  let sources :=
    if nonempty old_security_issues
    then list_append sources ("Security advisories for " ++ package ++ " " ++ old_version)
    else sources in
  let sources :=
    if nonempty old_incidents
    then list_append sources
           ("Internal incident reports for " ++ package ++ " " ++ old_version)
    else sources in
  let sources :=
    if (nonempty (compatible compat_info) || nonempty (incompatible compat_info))%bool
    then list_append sources "Internal compatibility matrix"
    else sources in
  sources.

(** [# Build summary] *)
Definition build_summary (bump_type old_version new_version : string) : string :=
  if String.eqb bump_type "major" then
    "Major version upgrade from " ++ old_version ++ " to " ++ new_version
      ++ ". This may include breaking changes."
  else if String.eqb bump_type "minor" then
    "Minor version upgrade from " ++ old_version ++ " to " ++ new_version
      ++ ". New features and improvements expected."
  else
    "Patch upgrade from " ++ old_version ++ " to " ++ new_version
      ++ ". Bug fixes and security patches.".

(** [# Risk reasoning] *)
Definition build_risk_reasoning (bump_type old_version new_version : string)
    (old_incidents new_incidents : list string) : list string :=
  let risk_reasoning := [] in
  let risk_reasoning :=
    if String.eqb bump_type "major" then
      list_append risk_reasoning
        "This is a major version upgrade, which typically includes breaking changes. Review the release notes carefully and plan for migration."
    else if String.eqb bump_type "minor" then
      list_append risk_reasoning
        "This is a minor version upgrade, which should be backward compatible but may introduce new features."
    else
      list_append risk_reasoning
        "This is a patch upgrade, which should be low risk and focused on bug fixes." in
  let risk_reasoning :=
    if nonempty old_incidents
    then list_append risk_reasoning
           ("‚ö†Ô∏è The old version (" ++ old_version
              ++ ") has known internal incidents that may be resolved in the new version.")
    else risk_reasoning in
  let risk_reasoning :=
    if nonempty new_incidents
    then list_append risk_reasoning
           ("‚ö†Ô∏è WARNING: The new version (" ++ new_version
              ++ ") has known internal incidents. Consider investigating before upgrading.")
    else risk_reasoning in
  risk_reasoning.

(** [# Security reasoning] *)
Definition build_security_reasoning (old_version new_version : string)
    (old_security_issues new_security_issues : list string) : list string :=
  let security_reasoning := [] in
  let security_reasoning :=
    if nonempty old_security_issues then
      let security_reasoning :=
        list_append security_reasoning
          ("üîí The old version (" ++ old_version
             ++ ") has known security vulnerabilities: "
             ++ join ", " old_security_issues) in
      if negb (nonempty new_security_issues)
      then list_append security_reasoning
             ("‚úÖ The new version (" ++ new_version
                ++ ") appears to address these security issues.")
      else security_reasoning
    else
      list_append security_reasoning
        ("‚úÖ No known security issues found for version " ++ old_version ++ ".") in
  let security_reasoning :=
    if nonempty new_security_issues
    then list_append security_reasoning
           ("‚ö†Ô∏è WARNING: The new version (" ++ new_version
              ++ ") has known security issues: " ++ join ", " new_security_issues)
    else security_reasoning in
  security_reasoning.

(** [# Compatibility reasoning] *)
Definition build_compatibility_reasoning (package : string) (compat_info : compat_info)
  : list string :=
  let compatibility_reasoning := [] in
  let compatibility_reasoning :=
    if nonempty (compatible compat_info)
    then list_append compatibility_reasoning
           ("‚úÖ Compatible versions found: " ++ join ", " (compatible compat_info))
    else compatibility_reasoning in
  let compatibility_reasoning :=
    if nonempty (incompatible compat_info)
    then list_append compatibility_reasoning
           ("‚ö†Ô∏è Potential compatibility concerns: "
              ++ join ", " (incompatible compat_info))
    else compatibility_reasoning in
  let compatibility_reasoning :=
    if (negb (nonempty (compatible compat_info))
        && negb (nonempty (incompatible compat_info)))%bool
    then list_append compatibility_reasoning
           ("‚ÑπÔ∏è No compatibility data found for other services using "
              ++ package ++ ".")
    else compatibility_reasoning in
  compatibility_reasoning.

(** [explain_version_choice]: the blocks above in the order of the source.
    [ecosystem] is accepted and not used; [metadata_bump] is computed and
    not returned. *)
Definition explain_version_choice
    (package old_version new_version ecosystem : string) (context : option string)
  : explanation :=
  let bump_type := get_bump_type old_version new_version in
  let metadata := get (get_default RELEASE_METADATA package []) new_version in
  let release_notes :=
    match metadata with
    | Some m => Meta.notes m
    | None => no_release_notes
    end in
  let metadata_bump :=
    match metadata with
    | Some m => Meta.bump_type m
    | None => bump_type
    end in
  let '(old_security_issues, new_security_issues) :=
    check_security_issues package old_version new_version in
  let '(old_incidents, new_incidents) :=
    check_internal_incidents package old_version new_version in
  let compat_info := check_compatibility package new_version context in
  {| summary := build_summary bump_type old_version new_version;
     risk_reasoning :=
       build_risk_reasoning bump_type old_version new_version old_incidents new_incidents;
     security_reasoning :=
       build_security_reasoning old_version new_version
         old_security_issues new_security_issues;
     compatibility_reasoning := build_compatibility_reasoning package compat_info;
     release_notes := release_notes;
     bump_type := bump_type;
     sources :=
       build_sources package old_version new_version release_notes
         old_security_issues old_incidents compat_info |}.

(** ** Presentation layer *)

Definition newline : string := String (ascii_of_nat 10) EmptyString.

(** [lines.append(header)], one [- item] line per element, then an empty
    line when [trailing_blank]; nothing when the list is empty. *)
Definition bullet_section (lines : list string) (header : string)
    (items : list string) (trailing_blank : bool) : list string :=
  if nonempty items then
    let lines := list_append lines header in
    let lines := fold_left (fun lines item => list_append lines ("- " ++ item)) items lines in
    if trailing_blank then list_append lines "" else lines
  else lines.

Definition format_explanation (explanation : explanation) : string :=
  let lines := [] in
  let lines := list_append lines ("**Summary:** " ++ summary explanation) in
  let lines := list_append lines "" in
  let lines := list_append lines ("**Release Notes:** " ++ release_notes explanation) in
  let lines := list_append lines "" in
  let lines :=
    bullet_section lines "**Risk Assessment:**" (risk_reasoning explanation) true in
  let lines :=
    bullet_section lines "**Security Considerations:**"
      (security_reasoning explanation) true in
  let lines :=
    bullet_section lines "**Compatibility:**" (compatibility_reasoning explanation) true in
  let lines := bullet_section lines "**Sources:**" (sources explanation) false in
  join newline lines.

(** An entry of [st.session_state.messages]. *)
Record message : Type := { role : string; content : string }.

(** What a run shows or requests besides the log: [st.error] and
    [st.rerun]. *)
Inductive ui_event : Type :=
  | st_error (text : string)
  | st_rerun.

(** The values of the sidebar widgets in one run of the script. *)
Record widgets : Type :=
  { ecosystem : string;
    package : string;
    old_version : string;
    new_version : string;
    context : string;
    explain_button : bool;
    clear_button : bool }.

(** The body of [if explain_button:], on the conversation log.
    [explain_version_choice] and [format_explanation] raise nothing (every
    lookup has a default), so the [except] branch is never entered and the
    run ends in [st.rerun()]. *)
Definition handle_explain (w : widgets) (messages : list message)
  : list message * list ui_event :=
  if (negb (truthy (package w)) || negb (truthy (old_version w))
      || negb (truthy (new_version w)))%bool
  then (messages, [st_error "Please fill in package name, old version, and new version."])
  else
    let user_query :=
      "Explain upgrading " ++ package w ++ " from " ++ old_version w
        ++ " to " ++ new_version w in
    let user_query :=
      if truthy (context w)
      then user_query ++ " (Context: " ++ context w ++ ")"
      else user_query in
    let messages := list_append messages {| role := "user"; content := user_query |} in
    let explanation :=
      explain_version_choice (package w) (old_version w) (new_version w) (ecosystem w)
        (if truthy (context w) then Some (context w) else None) in
    let formatted_response := format_explanation explanation in
    let messages :=
      list_append messages {| role := "assistant"; content := formatted_response |} in
    (messages, [st_rerun]).

(** One run of [main] on the session state: the log is created empty when
    the session has none; [st.rerun()] ends the run; the clear button exists
    only while the log is non-empty.  Rendering the log is left out, it
    reads the log and writes nothing. *)
Definition main (w : widgets) (session : option (list message))
  : list message * list ui_event :=
  let messages :=
    match session with
    | Some messages => messages
    | None => []
    end in
  let '(messages, events) :=
    if explain_button w then handle_explain w messages else (messages, []) in
  if existsb (fun e => match e with st_rerun => true | _ => false end) events
  then (messages, events)
  else if (nonempty messages && clear_button w)%bool
       then ([], list_append events st_rerun)
       else (messages, events).

(** ** The stated behaviour, in the words of the specification

    Definitions of this module follow the prose of the specification; the
    theorems below compare them with the functions above. *)

Module Spec.

(** The parsed major component of a version. *)
Definition major_of (version : string) : Z :=
  let '(major, _, _) := parse_version version in major.

(** [a <= b] in the lexicographic order of triples. *)
Definition lex_le (a b : Z * Z * Z) : Prop :=
  let '(a0, a1, a2) := a in
  let '(b0, b1, b2) := b in
  a0 < b0 \/ (a0 = b0 /\ (a1 < b1 \/ (a1 = b1 /\ a2 <= b2))).

(** [a <= b] in every component. *)
Definition componentwise_le (a b : Z * Z * Z) : Prop :=
  let '(a0, a1, a2) := a in
  let '(b0, b1, b2) := b in
  a0 <= b0 /\ a1 <= b1 /\ a2 <= b2.

(** The name of the first component, in the order major, minor, patch,
    where new strictly exceeds old; [unknown] when there is none. *)
Definition first_exceeding (old new : Z * Z * Z) : string :=
  let '(old0, old1, old2) := old in
  let '(new0, new1, new2) := new in
  match find (fun c : string * Z * Z => let '(_, o, n) := c in o <? n)
             [("major", old0, new0); ("minor", old1, new1); ("patch", old2, new2)]
  with
  | Some (name, _, _) => name
  | None => "unknown"
  end.

(** Split on [.]; ignore the components beyond the third; a component that
    is missing counts as 0; a component that is not a number makes the
    whole triple (0,0,0). *)
Definition component (tokens : list string) (i : nat) : Z :=
  match nth_error tokens i with
  | Some t => match py_int t with Some z => z | None => 0 end
  | None => 0
  end.

Definition parse (version : string) : Z * Z * Z :=
  let tokens := firstn 3 (split_dot version) in
  if forallb (fun t => match py_int t with Some _ => true | None => false end) tokens
  then (component tokens 0, component tokens 1, component tokens 2)
  else (0, 0, 0).

(** A character that is not the separator. *)
Definition no_dot (part : string) : Prop :=
  forall c, In c (list_ascii_of_string part) -> c <> "."%char.

(** No entry of the list is an entry of the service. *)
Definition no_entry_of (service_name : string) (entries : list string) : Prop :=
  forall e, In e entries -> String.prefix (service_name ++ " uses ") e = false.

(** What the full scan records for one service of the table: an entry in
    the compatible list when the majors are equal, an annotated entry in
    the incompatible list when the candidate's major is higher, nothing
    when it is lower or when the service does not use the package. *)
Definition compatible_entry (package new_version : string)
    (item : string * dict string) : list string :=
  match get (snd item) package with
  | Some service_version =>
      if major_of new_version =? major_of service_version
      then [fst item ++ " uses " ++ service_version]
      else []
  | None => []
  end.

Definition incompatible_entry (package new_version : string)
    (item : string * dict string) : list string :=
  match get (snd item) package with
  | Some service_version =>
      if major_of service_version <? major_of new_version
      then [fst item ++ " uses " ++ service_version ++ " (major version mismatch)"]
      else []
  | None => []
  end.

(** The context branch: the first service of the table, in declaration
    order, whose name occurs in the context whatever the case; it is
    recorded when it depends on the package; no version is looked at. *)
Definition context_entries (package context : string) : list string :=
  match find (fun item : string * dict string =>
                contains (lower (fst item)) (lower context))
             COMPATIBILITY_MATRIX
  with
  | Some (service_name, packages) =>
      match get packages package with
      | Some service_version => [service_name ++ " uses " ++ service_version]
      | None => []
      end
  | None => []
  end.

(** The context branch is taken for a context that is given and not empty. *)
Definition narrowed (package : string) (context : option string) : list string :=
  match context with
  | Some c => if truthy c then context_entries package c else []
  | None => []
  end.

(** The lines of the security reasoning. *)
Definition vulnerabilities_line (old_version : string) (issues : list string) : string :=
  "üîí The old version (" ++ old_version
    ++ ") has known security vulnerabilities: " ++ join ", " issues.

Definition resolved_line (new_version : string) : string :=
  "‚úÖ The new version (" ++ new_version
    ++ ") appears to address these security issues.".

Definition no_issues_line (old_version : string) : string :=
  "‚úÖ No known security issues found for version " ++ old_version ++ ".".

Definition new_issues_warning (new_version : string) (issues : list string) : string :=
  "‚ö†Ô∏è WARNING: The new version (" ++ new_version
    ++ ") has known security issues: " ++ join ", " issues.

Definition security_rule (old_version new_version : string)
    (old_issues new_issues : list string) : list string :=
  (match old_issues with
   | _ :: _ =>
       vulnerabilities_line old_version old_issues
       :: match new_issues with
          | [] => [resolved_line new_version]
          | _ :: _ => []
          end
   | [] => [no_issues_line old_version]
   end
   ++
   match new_issues with
   | _ :: _ => [new_issues_warning new_version new_issues]
   | [] => []
   end)%list.

(** The release notes looked up for a version of a package, or the default
    text when the table has none. *)
Definition notes_found (package version : string) : string :=
  match get (get_default RELEASE_METADATA package []) version with
  | Some m => Meta.notes m
  | None => "No release notes available."
  end.

(** The citations in their fixed order, each kept iff its condition holds. *)
Definition sources_rule (package old_version new_version notes : string)
    (old_issues old_incidents compatible incompatible : list string) : list string :=
  map snd
    (filter fst
       [ (negb (String.eqb notes "No release notes available."),
          "Release notes for " ++ package ++ " " ++ new_version);
         (negb (Nat.eqb (List.length old_issues) 0),
          "Security advisories for " ++ package ++ " " ++ old_version);
         (negb (Nat.eqb (List.length old_incidents) 0),
          "Internal incident reports for " ++ package ++ " " ++ old_version);
         (negb (Nat.eqb (List.length compatible + List.length incompatible) 0),
          "Internal compatibility matrix") ]).

(** The bump types and the wording of the summary for each. *)
Inductive bump : Type := Major | Minor | Patch | Unknown.

Definition bump_of_string (s : string) : option bump :=
  if String.eqb s "major" then Some Major
  else if String.eqb s "minor" then Some Minor
  else if String.eqb s "patch" then Some Patch
  else if String.eqb s "unknown" then Some Unknown
  else None.

Definition summary_wording (b : bump) (old_version new_version : string) : string :=
  match b with
  | Major =>
      "Major version upgrade from " ++ old_version ++ " to " ++ new_version
        ++ ". This may include breaking changes."
  | Minor =>
      "Minor version upgrade from " ++ old_version ++ " to " ++ new_version
        ++ ". New features and improvements expected."
  | Patch | Unknown =>
      "Patch upgrade from " ++ old_version ++ " to " ++ new_version
        ++ ". Bug fixes and security patches."
  end.

(** The baseline line of the risk reasoning for each bump type. *)
Definition risk_baseline (b : bump) : string :=
  match b with
  | Major =>
      "This is a major version upgrade, which typically includes breaking changes. Review the release notes carefully and plan for migration."
  | Minor =>
      "This is a minor version upgrade, which should be backward compatible but may introduce new features."
  | Patch | Unknown =>
      "This is a patch upgrade, which should be low risk and focused on bug fixes."
  end.

(** The lines of the compatibility reasoning. *)
Definition compatible_line (entries : list string) : string :=
  "‚úÖ Compatible versions found: " ++ join ", " entries.

Definition incompatible_line (entries : list string) : string :=
  "‚ö†Ô∏è Potential compatibility concerns: " ++ join ", " entries.

Definition no_data_line (package : string) : string :=
  "‚ÑπÔ∏è No compatibility data found for other services using " ++ package ++ ".".

(** The validation message of the submit handler. *)
Definition validation_error : ui_event :=
  st_error "Please fill in package name, old version, and new version.".

End Spec.

(** ** Further notions used to describe the code *)

Module Derived.

(** [a < b] in the lexicographic order of triples: a real upgrade. *)
Definition lex_lt (a b : Z * Z * Z) : Prop :=
  let '(a0, a1, a2) := a in
  let '(b0, b1, b2) := b in
  a0 < b0 \/ (a0 = b0 /\ (a1 < b1 \/ (a1 = b1 /\ a2 < b2))).

(** The name of the first component in which two triples differ. *)
Definition first_differing (old new : Z * Z * Z) : string :=
  let '(old0, old1, old2) := old in
  let '(new0, new1, new2) := new in
  if negb (old0 =? new0) then "major"
  else if negb (old1 =? new1) then "minor"
  else if negb (old2 =? new2) then "patch"
  else "unknown".

(** A token made of decimal digits only, and its value. *)
Fixpoint all_digits (s : string) : bool :=
  match s with
  | EmptyString => true
  | String c s' => (is_digit c && all_digits s')%bool
  end.

Fixpoint decimal_value (s : string) : Z :=
  match s with
  | EmptyString => 0
  | String c s' => digit_value c * 10 ^ Z.of_nat (String.length s') + decimal_value s'
  end.

Definition digit_string (s : string) : Prop :=
  s <> "" /\ all_digits s = true /\ (String.length s <= int_max_str_digits)%nat.


(** The incident lines of the risk reasoning, after the baseline. *)
Definition old_incidents_line (old_version : string) : string :=
  "‚ö†Ô∏è The old version (" ++ old_version
    ++ ") has known internal incidents that may be resolved in the new version.".

Definition new_incidents_line (new_version : string) : string :=
  "‚ö†Ô∏è WARNING: The new version (" ++ new_version
    ++ ") has known internal incidents. Consider investigating before upgrading.".

Definition risk_rule (b : Spec.bump) (old_version new_version : string)
    (old_incidents new_incidents : list string) : list string :=
  (Spec.risk_baseline b
   :: match old_incidents with
      | _ :: _ => [old_incidents_line old_version]
      | [] => []
      end
   ++ match new_incidents with
      | _ :: _ => [new_incidents_line new_version]
      | [] => []
      end)%list.

(** The lines of the formatted answer: a section is its header, one
    bullet per item and, except for the last section, an empty line; a
    section without items is left out. *)
Definition bullets (items : list string) : list string :=
  map (fun item => "- " ++ item) items.

Definition section (header : string) (items : list string) (blank : bool)
  : list string :=
  match items with
  | [] => []
  | _ :: _ => (header :: bullets items ++ if blank then [""] else [])%list
  end.

Definition layout (e : explanation) : list string :=
  ([ ("**Summary:** " ++ summary e)%string; "";
     ("**Release Notes:** " ++ release_notes e)%string; "" ]
   ++ section "**Risk Assessment:**" (risk_reasoning e) true
   ++ section "**Security Considerations:**" (security_reasoning e) true
   ++ section "**Compatibility:**" (compatibility_reasoning e) true
   ++ section "**Sources:**" (sources e) false)%list.

(** A log made of question and answer pairs. *)
Fixpoint paired (log : list message) : bool :=
  match log with
  | [] => true
  | question :: answer :: rest =>
      (String.eqb (role question) "user" && String.eqb (role answer) "assistant"
       && paired rest)%bool
  | [_] => false
  end.

(** The question put in the log for a submission. *)
Definition user_query (w : widgets) : string :=
  let question :=
    "Explain upgrading " ++ package w ++ " from " ++ old_version w
      ++ " to " ++ new_version w in
  match context w with
  | EmptyString => question
  | String _ _ => question ++ " (Context: " ++ context w ++ ")"
  end.

End Derived.

(** * Properties *)

(** ** Version comparator *)

Section Split.

Lemma join_cons_cons (sep x y : string) (l : list string) :
  join sep (x :: y :: l) = x ++ sep ++ join sep (y :: l).
Proof. reflexivity. Qed.

Lemma split_parts_join (s : string) :
  join "." (fst (split_parts s) :: snd (split_parts s)) = s.
Proof.
  induction s as [|c s IH]; [reflexivity|].
  cbn [split_parts]. destruct (split_parts s) as [h t] eqn:E.
  cbn [fst snd] in IH.
  destruct (Ascii.eqb c ".") eqn:Ec; cbn [fst snd].
  - apply Ascii.eqb_eq in Ec. subst c.
    rewrite join_cons_cons, IH. reflexivity.
  - destruct t as [|y t].
    + cbn in IH |- *. now rewrite IH.
    + rewrite join_cons_cons in IH |- *. rewrite <- IH. reflexivity.
Qed.

Lemma split_dot_join (s : string) : join "." (split_dot s) = s.
Proof.
  unfold split_dot. pose proof (split_parts_join s) as H.
  destruct (split_parts s); exact H.
Qed.

Lemma split_parts_no_dot (s : string) :
  Spec.no_dot (fst (split_parts s)) /\ Forall Spec.no_dot (snd (split_parts s)).
Proof.
  induction s as [|c s [IHh IHt]].
  - split; [intros c [] | constructor].
  - cbn [split_parts]. destruct (split_parts s) as [h t].
    cbn [fst snd] in *.
    destruct (Ascii.eqb c ".") eqn:Ec; cbn [fst snd].
    + split; [intros d [] | now constructor].
    + split; [|assumption].
      intros d [Hd | Hd].
      * subst d. intros ->. now rewrite Ascii.eqb_refl in Ec.
      * now apply IHh.
Qed.

Lemma split_dot_no_dot (s : string) : Forall Spec.no_dot (split_dot s).
Proof.
  unfold split_dot. pose proof (split_parts_no_dot s) as [Hh Ht].
  destruct (split_parts s); now constructor.
Qed.

Lemma split_dot_nonempty (s : string) : split_dot s <> [].
Proof. unfold split_dot. now destruct (split_parts s). Qed.

End Split.

(** [int] on the tokens a version can hold. *)
Example py_int_values :
  py_int "007" = Some 7
  /\ py_int " -5 " = Some (-5)
  /\ py_int "+1_000" = Some 1000
  /\ py_int "" = None
  /\ py_int "-" = None
  /\ py_int "1__0" = None
  /\ py_int "_1" = None
  /\ py_int "1_" = None
  /\ py_int "+ 1" = None
  /\ py_int "1 2" = None
  /\ py_int "0x10" = None
  /\ py_int "1.0" = None.
Proof. repeat split; reflexivity. Qed.

Example split_dot_values :
  split_dot "" = [""]
  /\ split_dot "abc" = ["abc"]
  /\ split_dot "1..3" = ["1"; ""; "3"]
  /\ split_dot ".1." = [""; "1"; ""].
Proof. repeat split; reflexivity. Qed.

Lemma parse_version_parts (version : string) :
  parse_version version = Spec.parse version.
Proof.
  unfold parse_version, Spec.parse, Spec.component, int_part, try_except, bind.
  destruct (split_dot version) as [|p0 [|p1 [|p2 rest]]];
    cbn [firstn forallb nth_error];
    repeat match goal with
           | |- context [py_int ?p] => destruct (py_int p)
           end;
    reflexivity.
Qed.

Lemma gtb_as_ltb (n m : Z) : (n >? m) = (m <? n).
Proof. apply Z.gtb_ltb. Qed.

Lemma get_bump_type_unknown_iff (old_version new_version : string) :
  get_bump_type old_version new_version = "unknown" <->
  Spec.componentwise_le (parse_version new_version) (parse_version old_version).
Proof.
  unfold get_bump_type, Spec.componentwise_le.
  destruct (parse_version old_version) as [[o0 o1] o2].
  destruct (parse_version new_version) as [[n0 n1] n2].
  rewrite !gtb_as_ltb.
  destruct (Z.ltb_spec o0 n0); [split; [discriminate | lia]|].
  destruct (Z.ltb_spec o1 n1); [split; [discriminate | lia]|].
  destruct (Z.ltb_spec o2 n2); [split; [discriminate | lia]|].
  split; [lia | reflexivity].
Qed.

(** C1, as stated, fails: from 2.0.0 to 1.5.0 the new triple is below the
    old one in lexicographic order, and the answer is [minor]. *)
Lemma get_bump_type_lex_le_not_unknown :
  Spec.lex_le (parse_version "1.5.0") (parse_version "2.0.0")
  /\ get_bump_type "2.0.0" "1.5.0" = "minor"
  /\ get_bump_type "2.0.0" "1.5.0" <> "unknown".
Proof.
  split; [|split].
  - vm_compute. left. reflexivity.
  - reflexivity.
  - discriminate.
Qed.

(** C1, amended: when every component of the parsed new version is at most
    the corresponding component of the parsed old version, [get_bump_type]
    returns [unknown]. *)
Theorem get_bump_type_componentwise_le_unknown (old_version new_version : string) :
  Spec.componentwise_le (parse_version new_version) (parse_version old_version) ->
  get_bump_type old_version new_version = "unknown".
Proof. apply get_bump_type_unknown_iff. Qed.

Lemma get_bump_type_componentwise_le_unknown_witness :
  Spec.componentwise_le (parse_version "1.4.2") (parse_version "1.5.2")
  /\ get_bump_type "1.5.2" "1.4.2" = "unknown".
Proof.
  assert (H : Spec.componentwise_le (parse_version "1.4.2") (parse_version "1.5.2")).
  { vm_compute. repeat split; discriminate. }
  split; [exact H|].
  exact (get_bump_type_componentwise_le_unknown "1.5.2" "1.4.2" H).
Defined.

(** C2: [get_bump_type] parses both versions and returns the name of the
    first component, in the order major, minor, patch, where new strictly
    exceeds old, and [unknown] when no component does. *)
Theorem get_bump_type_first_exceeding (old_version new_version : string) :
  get_bump_type old_version new_version
  = Spec.first_exceeding (parse_version old_version) (parse_version new_version).
Proof.
  unfold get_bump_type, Spec.first_exceeding.
  destruct (parse_version old_version) as [[o0 o1] o2].
  destruct (parse_version new_version) as [[n0 n1] n2].
  rewrite !gtb_as_ltb. cbn [find].
  destruct (o0 <? n0); [reflexivity|].
  destruct (o1 <? n1); [reflexivity|].
  destruct (o2 <? n2); reflexivity.
Qed.

(** A strict increase in one component only names that component. *)
Lemma get_bump_type_single_component (old_version new_version : string)
    (o0 o1 o2 n0 n1 n2 : Z) :
  parse_version old_version = (o0, o1, o2) ->
  parse_version new_version = (n0, n1, n2) ->
  (o0 < n0 -> n1 <= o1 -> n2 <= o2 -> get_bump_type old_version new_version = "major")
  /\ (n0 <= o0 -> o1 < n1 -> n2 <= o2 -> get_bump_type old_version new_version = "minor")
  /\ (n0 <= o0 -> n1 <= o1 -> o2 < n2 -> get_bump_type old_version new_version = "patch").
Proof.
  intros Ho Hn. unfold get_bump_type. rewrite Ho, Hn, !gtb_as_ltb.
  repeat split; intros;
    repeat match goal with
           | |- context [?a <? ?b] => destruct (Z.ltb_spec a b); try lia
           end;
    reflexivity.
Qed.

(** C3: [parse_version] splits on the dot, reads at most the first three
    components, counts a missing one as 0, and answers (0,0,0) as a whole
    when one of those read is not a number; the four stated values. *)
Theorem parse_version_correct :
  (forall version,
      join "." (split_dot version) = version
      /\ Forall Spec.no_dot (split_dot version)
      /\ parse_version version = Spec.parse version)
  /\ parse_version "2.1.0" = (2, 1, 0)
  /\ parse_version "1.5" = (1, 5, 0)
  /\ parse_version "abc" = (0, 0, 0)
  /\ parse_version "1.2.3.4" = (1, 2, 3).
Proof.
  split.
  - intros version. split; [apply split_dot_join|].
    split; [apply split_dot_no_dot | apply parse_version_parts].
  - repeat split; reflexivity.
Qed.

(** A failure in one of the first three components discards the others; a
    failure beyond the third is never seen; signs and spaces are read as
    [int] reads them. *)
Example parse_version_values :
  parse_version "1.x.3" = (0, 0, 0)
  /\ parse_version "1.2." = (0, 0, 0)
  /\ parse_version "" = (0, 0, 0)
  /\ parse_version "1.2.3.x" = (1, 2, 3)
  /\ parse_version "7" = (7, 0, 0)
  /\ parse_version " 1.-2.+3" = (1, -2, 3).
Proof. repeat split; reflexivity. Qed.

(** ** Compatibility checker *)

Section FullScan.

Variables package new_version : string.

Lemma scan_service_entries (lists : list string * list string)
    (item : string * dict string) :
  scan_service package new_version lists item
  = ((fst lists ++ Spec.compatible_entry package new_version item)%list,
     (snd lists ++ Spec.incompatible_entry package new_version item)%list).
Proof.
  destruct lists as [c i], item as [service_name packages].
  unfold scan_service, Spec.compatible_entry, Spec.incompatible_entry, Spec.major_of,
    list_append.
  cbn [fst snd].
  destruct (get packages package) as [service_version|].
  - destruct (parse_version new_version) as [[new0 ?] ?].
    destruct (parse_version service_version) as [[service0 ?] ?].
    rewrite gtb_as_ltb.
    destruct (Z.eqb_spec new0 service0) as [->|Hne].
    + rewrite Z.ltb_irrefl, app_nil_r. reflexivity.
    + destruct (service0 <? new0); now rewrite !app_nil_r.
  - now rewrite !app_nil_r.
Qed.

Lemma full_scan_entries (services : dict (dict string))
    (lists : list string * list string) :
  full_scan services package new_version lists
  = ((fst lists ++ flat_map (Spec.compatible_entry package new_version) services)%list,
     (snd lists ++ flat_map (Spec.incompatible_entry package new_version) services)%list).
Proof.
  unfold full_scan. revert lists.
  induction services as [|item services IH]; intros [c i].
  - cbn. now rewrite !app_nil_r.
  - cbn [fold_left flat_map]. rewrite scan_service_entries, IH.
    cbn [fst snd]. now rewrite <- !app_assoc.
Qed.

End FullScan.

Lemma context_scan_find (services : dict (dict string)) (package context_lower : string)
    (compatible_services : list string) :
  context_scan services package context_lower compatible_services
  = (compatible_services
     ++ match find (fun item : string * dict string =>
                      contains (lower (fst item)) context_lower) services
        with
        | Some (service_name, packages) =>
            match get packages package with
            | Some service_version =>
                [(service_name ++ " uses " ++ service_version)%string]
            | None => []
            end
        | None => []
        end)%list.
Proof.
  induction services as [|[service_name packages] services IH].
  - cbn. now rewrite app_nil_r.
  - cbn [context_scan find fst].
    destruct (contains (lower service_name) context_lower).
    + unfold list_append. destruct (get packages package); [reflexivity|].
      now rewrite app_nil_r.
    + exact IH.
Qed.

Lemma check_compatibility_lists (package new_version : string) (context : option string) :
  compatible (check_compatibility package new_version context)
  = (Spec.narrowed package context
     ++ flat_map (Spec.compatible_entry package new_version) COMPATIBILITY_MATRIX)%list
  /\ incompatible (check_compatibility package new_version context)
     = flat_map (Spec.incompatible_entry package new_version) COMPATIBILITY_MATRIX.
Proof.
  unfold check_compatibility. rewrite full_scan_entries. cbn [fst snd compatible incompatible].
  split; [|reflexivity].
  f_equal. unfold Spec.narrowed, Spec.context_entries.
  destruct context as [c|]; [|reflexivity].
  destruct (truthy c); [|reflexivity].
  apply (context_scan_find COMPATIBILITY_MATRIX package (lower c) []).
Qed.

Lemma compatible_entry_form (package new_version : string)
    (item : string * dict string) (e : string) :
  In e (Spec.compatible_entry package new_version item) ->
  exists v, e = fst item ++ " uses " ++ v.
Proof.
  unfold Spec.compatible_entry.
  destruct (get (snd item) package) as [v|]; [|intros []].
  destruct (_ =? _); [|intros []].
  intros [<-|[]]. now exists v.
Qed.

Lemma incompatible_entry_form (package new_version : string)
    (item : string * dict string) (e : string) :
  In e (Spec.incompatible_entry package new_version item) ->
  exists v, e = fst item ++ " uses " ++ v.
Proof.
  unfold Spec.incompatible_entry.
  destruct (get (snd item) package) as [v|]; [|intros []].
  destruct (_ <? _); [|intros []].
  intros [<-|[]]. now exists (v ++ " (major version mismatch)").
Qed.

(** The service names of the table are told apart by the entries: when a
    service records nothing, no entry of the list is one of its own. *)
Lemma matrix_no_entry (f : string * dict string -> list string)
    (service_name : string) (packages : dict string) :
  In (service_name, packages) COMPATIBILITY_MATRIX ->
  f (service_name, packages) = [] ->
  (forall item e, In e (f item) -> exists v, e = fst item ++ " uses " ++ v) ->
  Spec.no_entry_of service_name (flat_map f COMPATIBILITY_MATRIX).
Proof.
  intros Hin Hnil Hform e He.
  apply in_flat_map in He. destruct He as (item & Hitem & He).
  destruct (Hform item e He) as [v ->].
  unfold COMPATIBILITY_MATRIX in Hin, Hitem. cbn [In] in Hin, Hitem.
  destruct Hin as [Hin|[Hin|[Hin|[]]]]; inversion Hin; subst; clear Hin;
    destruct Hitem as [H|[H|[H|[]]]]; subst item;
    try (match type of He with
         | In ?x _ =>
             match type of Hnil with
             | ?l = _ => change (In x l) in He; rewrite Hnil in He; destruct He
             end
         end);
    reflexivity.
Qed.

(** C4: in the full scan, a service of the matrix that depends on the
    package is put in the compatible list when the candidate's major equals
    its recorded major, in the incompatible list with the annotation
    [(major version mismatch)] when the candidate's major is higher, and in
    neither list when it is lower.  A context changes nothing of this: it
    only puts entries in front of the compatible list. *)
Theorem full_scan_classifies
    (package new_version service_name service_version : string)
    (packages : dict string) :
  In (service_name, packages) COMPATIBILITY_MATRIX ->
  get packages package = Some service_version ->
  let result := check_compatibility package new_version None in
  let entry := service_name ++ " uses " ++ service_version in
  (Spec.major_of new_version = Spec.major_of service_version ->
   In entry (compatible result)
   /\ Spec.no_entry_of service_name (incompatible result))
  /\ (Spec.major_of new_version > Spec.major_of service_version ->
      In (service_name ++ " uses " ++ service_version ++ " (major version mismatch)")
         (incompatible result)
      /\ Spec.no_entry_of service_name (compatible result))
  /\ (Spec.major_of new_version < Spec.major_of service_version ->
      Spec.no_entry_of service_name (compatible result)
      /\ Spec.no_entry_of service_name (incompatible result))
  /\ (forall context,
         incompatible (check_compatibility package new_version context)
         = incompatible result
         /\ compatible (check_compatibility package new_version context)
            = (Spec.narrowed package context ++ compatible result)%list).
Proof.
  intros Hin Hget result entry. subst result entry.
  destruct (check_compatibility_lists package new_version None) as [Hc Hi].
  cbn [Spec.narrowed app] in Hc. rewrite Hc, Hi.
  assert (Ec : Spec.compatible_entry package new_version (service_name, packages)
               = if Spec.major_of new_version =? Spec.major_of service_version
                 then [service_name ++ " uses " ++ service_version] else []).
  { unfold Spec.compatible_entry. cbn [fst snd]. now rewrite Hget. }
  assert (Ei : Spec.incompatible_entry package new_version (service_name, packages)
               = if Spec.major_of service_version <? Spec.major_of new_version
                 then [service_name ++ " uses " ++ service_version
                         ++ " (major version mismatch)"]
                 else []).
  { unfold Spec.incompatible_entry. cbn [fst snd]. now rewrite Hget. }
  split; [intros Heq; split | split; [intros Hgt; split | split; [intros Hlt; split |]]].
  - apply in_flat_map. exists (service_name, packages). split; [assumption|].
    rewrite Ec, Heq, Z.eqb_refl. now left.
  - apply matrix_no_entry with (packages := packages);
      [assumption | | apply incompatible_entry_form].
    rewrite Ei, Heq, Z.ltb_irrefl. reflexivity.
  - apply in_flat_map. exists (service_name, packages). split; [assumption|].
    rewrite Ei. destruct (Z.ltb_spec (Spec.major_of service_version)
                            (Spec.major_of new_version)); [now left | lia].
  - apply matrix_no_entry with (packages := packages);
      [assumption | | apply compatible_entry_form].
    rewrite Ec. destruct (Z.eqb_spec (Spec.major_of new_version)
                            (Spec.major_of service_version)); [lia | reflexivity].
  - apply matrix_no_entry with (packages := packages);
      [assumption | | apply compatible_entry_form].
    rewrite Ec. destruct (Z.eqb_spec (Spec.major_of new_version)
                            (Spec.major_of service_version)); [lia | reflexivity].
  - apply matrix_no_entry with (packages := packages);
      [assumption | | apply incompatible_entry_form].
    rewrite Ei. destruct (Z.ltb_spec (Spec.major_of service_version)
                            (Spec.major_of new_version)); [lia | reflexivity].
  - intros context.
    destruct (check_compatibility_lists package new_version context) as [Hc' Hi'].
    split; assumption.
Qed.

Lemma full_scan_classifies_witness :
  In ("Checkout Service",
      [("payments-core", "3.2.0"); ("auth-lib", "2.2.0"); ("logging-lib", "1.5.1")])
     COMPATIBILITY_MATRIX
  /\ get [("payments-core", "3.2.0"); ("auth-lib", "2.2.0"); ("logging-lib", "1.5.1")]
         "auth-lib" = Some "2.2.0"
  /\ In "Checkout Service uses 2.2.0 (major version mismatch)"
        (incompatible (check_compatibility "auth-lib" "3.1.0" None))
  /\ Spec.no_entry_of "Checkout Service"
        (compatible (check_compatibility "auth-lib" "3.1.0" None)).
Proof.
  assert (Hin : In ("Checkout Service",
                    [("payments-core", "3.2.0"); ("auth-lib", "2.2.0");
                     ("logging-lib", "1.5.1")]) COMPATIBILITY_MATRIX)
    by (left; reflexivity).
  assert (Hget : get [("payments-core", "3.2.0"); ("auth-lib", "2.2.0");
                      ("logging-lib", "1.5.1")] "auth-lib" = Some "2.2.0")
    by reflexivity.
  assert (Hgt : Spec.major_of "3.1.0" > Spec.major_of "2.2.0")
    by (vm_compute; reflexivity).
  pose proof (full_scan_classifies "auth-lib" "3.1.0" "Checkout Service" "2.2.0" _
                Hin Hget) as H.
  cbv zeta in H. destruct H as (_ & H & _). destruct (H Hgt) as [H1 H2].
  repeat split; assumption.
Defined.

(** The full scan on the table: a lower candidate major leaves the service
    out of both lists. *)
Example full_scan_lower_major :
  check_compatibility "auth-lib" "2.9.0" None
  = {| compatible := ["Checkout Service uses 2.2.0"; "API Gateway uses 2.2.0"];
       incompatible := [] |}.
Proof. reflexivity. Qed.

Example full_scan_higher_major :
  check_compatibility "logging-lib" "2.0.0" None
  = {| compatible := ["User Service uses 2.0.0"];
       incompatible := ["Checkout Service uses 1.5.1 (major version mismatch)";
                        "API Gateway uses 1.5.1 (major version mismatch)"] |}.
Proof. reflexivity. Qed.

(** C5: with a context that is not empty, the services are visited in the
    order of the table, the first one whose name occurs in the context,
    whatever the case, ends the search, and it is recorded as compatible
    when it depends on the package, with no look at the versions; the full
    scan then adds its own entries, so that a service found by both is
    listed twice. *)
Theorem context_narrowing (package new_version context : string) :
  truthy context = true ->
  let result := check_compatibility package new_version (Some context) in
  let scan := check_compatibility package new_version None in
  compatible result = (Spec.context_entries package context ++ compatible scan)%list
  /\ incompatible result = incompatible scan
  /\ (forall service_name packages service_version,
         find (fun item : string * dict string =>
                 contains (lower (fst item)) (lower context))
              COMPATIBILITY_MATRIX = Some (service_name, packages) ->
         get packages package = Some service_version ->
         Spec.major_of new_version = Spec.major_of service_version ->
         (2 <= count_occ string_dec (compatible result)
                 (service_name ++ " uses " ++ service_version))%nat).
Proof.
  intros Hctx result scan. subst result scan.
  destruct (check_compatibility_lists package new_version (Some context)) as [Hc Hi].
  destruct (check_compatibility_lists package new_version None) as [Hc0 Hi0].
  cbn [Spec.narrowed app] in Hc, Hc0. rewrite Hctx in Hc.
  rewrite Hc, Hi, Hc0, Hi0.
  split; [reflexivity | split; [reflexivity|]].
  intros service_name packages service_version Hfind Hget Hmajor.
  rewrite count_occ_app.
  unfold Spec.context_entries. rewrite Hfind, Hget.
  cbn [count_occ].
  destruct (string_dec _ _) as [_|Hne]; [|now elim Hne].
  apply le_n_S. apply (proj1 (count_occ_In string_dec _ _)).
  apply in_flat_map. exists (service_name, packages). split.
  - now apply find_some in Hfind.
  - unfold Spec.compatible_entry. cbn [fst snd].
    rewrite Hget, Hmajor, Z.eqb_refl. now left.
Qed.

Lemma context_narrowing_witness :
  truthy "Checkout Service, prod rollout" = true
  /\ compatible (check_compatibility "payments-core" "3.5.0"
                   (Some "Checkout Service, prod rollout"))
     = ["Checkout Service uses 3.2.0"; "Checkout Service uses 3.2.0"].
Proof.
  split; [reflexivity|].
  pose proof (context_narrowing "payments-core" "3.5.0"
                "Checkout Service, prod rollout" eq_refl) as H.
  cbv zeta in H. destruct H as (H & _). rewrite H. reflexivity.
Defined.

(** The context branch looks at no version: the service named in the
    context is listed as compatible although the candidate's major is
    below its own. *)
Example context_ignores_versions :
  check_compatibility "auth-lib" "2.2.0" (Some "rollout to the USER SERVICE")
  = {| compatible := ["User Service uses 3.0.0"; "Checkout Service uses 2.2.0";
                      "API Gateway uses 2.2.0"];
       incompatible := [] |}.
Proof. reflexivity. Qed.

(** The order is the table's, not the text's; the search ends at the first
    match even when that service does not use the package. *)
Example context_table_order :
  Spec.context_entries "auth-lib" "api gateway, then checkout service"
  = ["Checkout Service uses 2.2.0"]
  /\ compatible (check_compatibility "payments-core" "9.0.0"
                   (Some "User Service and Checkout Service"))
     = ["Checkout Service uses 3.2.0"]
  /\ compatible (check_compatibility "payments-core" "9.0.0" (Some "User Service")) = []
  /\ compatible (check_compatibility "payments-core" "3.0.0" (Some ""))
     = compatible (check_compatibility "payments-core" "3.0.0" None).
Proof. repeat split; reflexivity. Qed.

(** ** Explanation composer *)

(** Open [explain_version_choice] and name the four looked-up lists. *)
Ltac open_explain oi ni a b :=
  unfold explain_version_choice;
  match goal with
  | |- context [check_security_issues ?p ?o ?n] =>
      destruct (check_security_issues p o n) as [oi ni];
      destruct (check_internal_incidents p o n) as [a b]
  end.

Section Composer.

Variables package old_version new_version ecosystem : string.
Variable context : option string.

Lemma explain_bump_type :
  bump_type (explain_version_choice package old_version new_version ecosystem context)
  = get_bump_type old_version new_version.
Proof.
  open_explain oi ni a b. reflexivity.
Qed.

Lemma explain_release_notes :
  release_notes (explain_version_choice package old_version new_version ecosystem context)
  = Spec.notes_found package new_version.
Proof.
  open_explain oi ni a b. reflexivity.
Qed.

Lemma explain_security_reasoning :
  security_reasoning
    (explain_version_choice package old_version new_version ecosystem context)
  = Spec.security_rule old_version new_version
      (fst (check_security_issues package old_version new_version))
      (snd (check_security_issues package old_version new_version)).
Proof.
  open_explain oi ni a b.
  cbn [security_reasoning fst snd].
  unfold build_security_reasoning, Spec.security_rule, list_append.
  destruct oi, ni; reflexivity.
Qed.

Lemma explain_sources :
  sources (explain_version_choice package old_version new_version ecosystem context)
  = Spec.sources_rule package old_version new_version
      (Spec.notes_found package new_version)
      (fst (check_security_issues package old_version new_version))
      (fst (check_internal_incidents package old_version new_version))
      (compatible (check_compatibility package new_version context))
      (incompatible (check_compatibility package new_version context)).
Proof.
  open_explain oi ni a b. unfold Spec.notes_found, no_release_notes.
  cbn [sources fst snd].
  generalize (check_compatibility package new_version context) as info.
  intros [c i].
  generalize (match get (get_default RELEASE_METADATA package []) new_version with
              | Some m => Meta.notes m
              | None => "No release notes available."
              end) as notes.
  intros notes.
  unfold build_sources, Spec.sources_rule, no_release_notes, list_append.
  cbn [compatible incompatible].
  destruct (String.eqb notes "No release notes available.");
    destruct oi, a, c, i; reflexivity.
Qed.

Lemma get_bump_type_names :
  exists b,
    Spec.bump_of_string (get_bump_type old_version new_version) = Some b
    /\ build_summary (get_bump_type old_version new_version) old_version new_version
       = Spec.summary_wording b old_version new_version
    /\ hd_error (build_risk_reasoning (get_bump_type old_version new_version)
                   old_version new_version
                   (fst (check_internal_incidents package old_version new_version))
                   (snd (check_internal_incidents package old_version new_version)))
       = Some (Spec.risk_baseline b).
Proof.
  unfold get_bump_type.
  destruct (parse_version old_version) as [[o0 o1] o2].
  destruct (parse_version new_version) as [[n0 n1] n2].
  destruct (check_internal_incidents package old_version new_version) as [a b].
  cbn [fst snd].
  destruct (n0 >? o0); [exists Spec.Major; destruct a, b; repeat split|].
  destruct (n1 >? o1); [exists Spec.Minor; destruct a, b; repeat split|].
  destruct (n2 >? o2); [exists Spec.Patch | exists Spec.Unknown];
    destruct a, b; repeat split.
Qed.

Lemma explain_summary :
  exists b,
    Spec.bump_of_string
      (bump_type (explain_version_choice package old_version new_version ecosystem context))
    = Some b
    /\ summary (explain_version_choice package old_version new_version ecosystem context)
       = Spec.summary_wording b old_version new_version
    /\ hd_error
         (risk_reasoning
            (explain_version_choice package old_version new_version ecosystem context))
       = Some (Spec.risk_baseline b).
Proof.
  destruct get_bump_type_names as (b & Hb & Hs & Hr). exists b.
  open_explain oi ni x y.
  cbn [bump_type summary risk_reasoning]. cbn [fst snd] in Hr.
  repeat split; assumption.
Qed.

Lemma explain_compatibility_reasoning :
  compatibility_reasoning
    (explain_version_choice package old_version new_version ecosystem context)
  = match compatible (check_compatibility package new_version context),
          incompatible (check_compatibility package new_version context)
    with
    | [], [] => [Spec.no_data_line package]
    | [], _ :: _ =>
        [Spec.incompatible_line
           (incompatible (check_compatibility package new_version context))]
    | _ :: _, [] =>
        [Spec.compatible_line
           (compatible (check_compatibility package new_version context))]
    | _ :: _, _ :: _ =>
        [Spec.compatible_line
           (compatible (check_compatibility package new_version context));
         Spec.incompatible_line
           (incompatible (check_compatibility package new_version context))]
    end.
Proof.
  open_explain oi ni a b.
  cbn [compatibility_reasoning].
  destruct (check_compatibility package new_version context) as [c i].
  unfold build_compatibility_reasoning, list_append. cbn [compatible incompatible].
  destruct c, i; reflexivity.
Qed.

End Composer.

(** The four cases of the security rule. *)
Lemma security_rule_table (old_version new_version i j : string) (l m : list string) :
  Spec.security_rule old_version new_version [] [] = [Spec.no_issues_line old_version]
  /\ Spec.security_rule old_version new_version (i :: l) []
     = [Spec.vulnerabilities_line old_version (i :: l); Spec.resolved_line new_version]
  /\ Spec.security_rule old_version new_version [] (j :: m)
     = [Spec.no_issues_line old_version; Spec.new_issues_warning new_version (j :: m)]
  /\ Spec.security_rule old_version new_version (i :: l) (j :: m)
     = [Spec.vulnerabilities_line old_version (i :: l);
        Spec.new_issues_warning new_version (j :: m)].
Proof. repeat split; reflexivity. Qed.

(** C6: the security reasoning lists the old version's issues in one line,
    followed by the confirmation line exactly when the new version has
    none; without old issues it is the single no-known-issues line; a
    warning line is appended whenever the new version has issues.  Scenario
    B: payments-core from 3.0.0 to 3.1.0 gives the CVE line and the
    confirmation line. *)
Theorem security_reasoning_rule :
  (forall (package old_version new_version ecosystem : string) (context : option string),
      security_reasoning
        (explain_version_choice package old_version new_version ecosystem context)
      = Spec.security_rule old_version new_version
          (fst (check_security_issues package old_version new_version))
          (snd (check_security_issues package old_version new_version)))
  /\ security_reasoning (explain_version_choice "payments-core" "3.0.0" "3.1.0" "pip" None)
     = [ Spec.vulnerabilities_line "3.0.0"
           ["CVE-2024-002: Potential race condition in transaction processing"];
         Spec.resolved_line "3.1.0" ].
Proof.
  split; [|reflexivity].
  intros. apply explain_security_reasoning.
Qed.

(** The table realises the other cases too. *)
Example security_reasoning_other_cases :
  security_reasoning (explain_version_choice "auth-lib" "2.1.0" "2.2.0" "pip" None)
  = [Spec.no_issues_line "2.1.0"]
  /\ security_reasoning (explain_version_choice "auth-lib" "2.0.0" "2.0.5" "pip" None)
     = [ Spec.vulnerabilities_line "2.0.0"
           ["CVE-2024-001: Token validation bypass vulnerability"];
         Spec.new_issues_warning "2.0.5"
           ["CVE-2024-001: Token validation bypass vulnerability"] ]
  /\ security_reasoning (explain_version_choice "auth-lib" "2.1.0" "2.0.0" "pip" None)
     = [ Spec.no_issues_line "2.1.0";
         Spec.new_issues_warning "2.0.0"
           ["CVE-2024-001: Token validation bypass vulnerability"] ].
Proof. repeat split; reflexivity. Qed.

(** C7: the sources are, in this order and each iff its condition holds:
    the release notes line iff the notes found are not the default text,
    the security advisories line iff the old version has issues, the
    incident reports line iff the old version has incidents, the
    compatibility matrix line iff one of the two compatibility lists is not
    empty. *)
Theorem sources_in_fixed_order
    (package old_version new_version ecosystem : string) (context : option string) :
  release_notes (explain_version_choice package old_version new_version ecosystem context)
  = Spec.notes_found package new_version
  /\ sources (explain_version_choice package old_version new_version ecosystem context)
     = Spec.sources_rule package old_version new_version
         (Spec.notes_found package new_version)
         (fst (check_security_issues package old_version new_version))
         (fst (check_internal_incidents package old_version new_version))
         (compatible (check_compatibility package new_version context))
         (incompatible (check_compatibility package new_version context)).
Proof. split; [apply explain_release_notes | apply explain_sources]. Qed.

Example sources_scenarios :
  sources (explain_version_choice "auth-lib" "2.1.0" "2.2.0" "pip" None)
  = ["Release notes for auth-lib 2.2.0"; "Internal compatibility matrix"]
  /\ sources (explain_version_choice "unknown-pkg" "1.0.0" "2.0.0" "pip" None) = []
  /\ sources (explain_version_choice "auth-lib" "2.0.0" "3.0.0" "npm" None)
     = ["Release notes for auth-lib 3.0.0"; "Security advisories for auth-lib 2.0.0";
        "Internal incident reports for auth-lib 2.0.0"; "Internal compatibility matrix"].
Proof. repeat split; reflexivity. Qed.

(** C8: the summary is chosen by the computed bump type alone: the
    breaking-change wording for major, the feature wording for minor, and
    one bug-fix wording for both patch and unknown. *)
Theorem summary_by_bump_type :
  (forall (package old_version new_version ecosystem : string) (context : option string),
      let result :=
        explain_version_choice package old_version new_version ecosystem context in
      bump_type result = get_bump_type old_version new_version
      /\ exists b,
           Spec.bump_of_string (bump_type result) = Some b
           /\ summary result = Spec.summary_wording b old_version new_version)
  /\ (forall old_version new_version,
         Spec.summary_wording Spec.Unknown old_version new_version
         = Spec.summary_wording Spec.Patch old_version new_version)
  /\ bump_type (explain_version_choice "auth-lib" "2.2.0" "2.1.0" "pip" None) = "unknown"
  /\ summary (explain_version_choice "auth-lib" "2.2.0" "2.1.0" "pip" None)
     = "Patch upgrade from 2.2.0 to 2.1.0. Bug fixes and security patches.".
Proof.
  split; [|repeat split].
  intros package old_version new_version ecosystem context result. subst result.
  split; [apply explain_bump_type|].
  destruct (explain_summary package old_version new_version ecosystem context)
    as (b & Hb & Hs & _).
  exists b. split; assumption.
Qed.

Example summary_each_bump :
  summary (explain_version_choice "auth-lib" "2.2.0" "3.0.0" "pip" None)
  = "Major version upgrade from 2.2.0 to 3.0.0. This may include breaking changes."
  /\ summary (explain_version_choice "auth-lib" "2.1.0" "2.2.0" "pip" None)
     = "Minor version upgrade from 2.1.0 to 2.2.0. New features and improvements expected."
  /\ summary (explain_version_choice "logging-lib" "1.5.0" "1.5.1" "pip" None)
     = "Patch upgrade from 1.5.0 to 1.5.1. Bug fixes and security patches.".
Proof. repeat split; reflexivity. Qed.

(** C10: the three reasoning lists are never empty: the risk reasoning
    starts with the baseline line of the bump type, the security reasoning
    has the issues line or the no-known-issues line, the compatibility
    reasoning has a compatible line, an incompatible line or the
    no-compatibility-data line. *)
Theorem reasoning_lists_nonempty
    (package old_version new_version ecosystem : string) (context : option string) :
  let result :=
    explain_version_choice package old_version new_version ecosystem context in
  let compat := check_compatibility package new_version context in
  (risk_reasoning result <> []
   /\ security_reasoning result <> []
   /\ compatibility_reasoning result <> [])
  /\ (exists b,
         Spec.bump_of_string (bump_type result) = Some b
         /\ hd_error (risk_reasoning result) = Some (Spec.risk_baseline b))
  /\ (In (Spec.vulnerabilities_line old_version
            (fst (check_security_issues package old_version new_version)))
         (security_reasoning result)
      \/ In (Spec.no_issues_line old_version) (security_reasoning result))
  /\ (In (Spec.compatible_line (compatible compat)) (compatibility_reasoning result)
      \/ In (Spec.incompatible_line (incompatible compat))
            (compatibility_reasoning result)
      \/ In (Spec.no_data_line package) (compatibility_reasoning result)).
Proof.
  intros result compat. subst result compat.
  destruct (explain_summary package old_version new_version ecosystem context)
    as (b & Hb & _ & Hr).
  rewrite explain_security_reasoning, explain_compatibility_reasoning.
  split; [split; [|split]|split; [|split]].
  - intros E. rewrite E in Hr. discriminate.
  - unfold Spec.security_rule.
    destruct (fst (check_security_issues package old_version new_version)); discriminate.
  - destruct (compatible _), (incompatible _); discriminate.
  - exists b. split; assumption.
  - unfold Spec.security_rule.
    destruct (fst (check_security_issues package old_version new_version));
      [right | left]; now left.
  - destruct (compatible _), (incompatible _); cbn [In]; auto.
Qed.

(** ** Submit handler *)

Lemma truthy_empty (s : string) : s = "" -> truthy s = false.
Proof. now intros ->. Qed.

Lemma missing_field_test (w : widgets) :
  package w = "" \/ old_version w = "" \/ new_version w = "" ->
  (negb (truthy (package w)) || negb (truthy (old_version w))
   || negb (truthy (new_version w)))%bool = true.
Proof.
  intros [H | [H | H]]; rewrite (truthy_empty _ H); cbn [negb orb];
    rewrite ?orb_true_r; reflexivity.
Qed.

(** C9: a submission with the package name, the old version or the new
    version empty reports the validation error and leaves the conversation
    log as it was: the handler returns the log it was given, and so does
    the whole run started by the explain button. *)
Theorem missing_field_keeps_log (w : widgets) (messages : list message) :
  package w = "" \/ old_version w = "" \/ new_version w = "" ->
  handle_explain w messages = (messages, [Spec.validation_error])
  /\ (explain_button w = true -> clear_button w = false ->
      main w (Some messages) = (messages, [Spec.validation_error])).
Proof.
  intros Hmissing.
  assert (Hh : handle_explain w messages = (messages, [Spec.validation_error])).
  { unfold handle_explain. now rewrite (missing_field_test w Hmissing). }
  split; [exact Hh|].
  intros Hexplain Hclear. unfold main. rewrite Hexplain, Hh, Hclear.
  cbn [existsb Spec.validation_error orb]. now rewrite andb_false_r.
Qed.

Lemma missing_field_keeps_log_witness :
  let w := {| ecosystem := "pip"; package := "auth-lib"; old_version := "";
              new_version := "2.2.0"; context := "Checkout Service";
              explain_button := true; clear_button := false |} in
  let log := [ {| role := "user"; content := "Explain upgrading x from 1 to 2" |};
               {| role := "assistant"; content := "**Summary:** ..." |} ] in
  (package w = "" \/ old_version w = "" \/ new_version w = "")
  /\ handle_explain w log = (log, [Spec.validation_error]).
Proof.
  intros w log.
  assert (H : package w = "" \/ old_version w = "" \/ new_version w = "")
    by (right; left; reflexivity).
  split; [exact H|].
  exact (proj1 (missing_field_keeps_log w log H)).
Defined.

(** With the three fields filled in, the log grows by the user's question
    and the assistant's answer, in this order. *)
Lemma filled_fields_append_two (w : widgets) (messages : list message) :
  truthy (package w) = true ->
  truthy (old_version w) = true ->
  truthy (new_version w) = true ->
  exists question answer,
    role question = "user" /\ role answer = "assistant"
    /\ handle_explain w messages
       = ((messages ++ [question; answer])%list, [st_rerun]).
Proof.
  intros Hp Ho Hn. unfold handle_explain. rewrite Hp, Ho, Hn. cbn [negb orb].
  eexists; eexists. split; [|split]; [| |unfold list_append; rewrite <- app_assoc;
                                        reflexivity]; reflexivity.
Qed.

(** * Further properties of the code *)

(** ** [get_bump_type] *)

(** X1: on a real upgrade, where the new triple is above the old one in
    lexicographic order, [get_bump_type] names the first component in
    which the two versions differ, and never answers [unknown]. *)
Theorem get_bump_type_upgrade (old_version new_version : string) :
  Derived.lex_lt (parse_version old_version) (parse_version new_version) ->
  get_bump_type old_version new_version
  = Derived.first_differing (parse_version old_version) (parse_version new_version)
  /\ get_bump_type old_version new_version <> "unknown".
Proof.
  unfold get_bump_type, Derived.lex_lt, Derived.first_differing.
  destruct (parse_version old_version) as [[o0 o1] o2].
  destruct (parse_version new_version) as [[n0 n1] n2].
  rewrite !gtb_as_ltb. intros H.
  destruct (Z.ltb_spec o0 n0), (Z.eqb_spec o0 n0); try lia;
    [split; [reflexivity | discriminate]|].
  destruct (Z.ltb_spec o1 n1), (Z.eqb_spec o1 n1); try lia;
    [split; [reflexivity | discriminate]|].
  destruct (Z.ltb_spec o2 n2), (Z.eqb_spec o2 n2); try lia.
  split; [reflexivity | discriminate].
Qed.

Lemma get_bump_type_upgrade_witness :
  Derived.lex_lt (parse_version "1.9.7") (parse_version "1.10.0")
  /\ get_bump_type "1.9.7" "1.10.0" = "minor".
Proof.
  assert (H : Derived.lex_lt (parse_version "1.9.7") (parse_version "1.10.0")).
  { vm_compute. right. split; [reflexivity|]. left. reflexivity. }
  split; [exact H|].
  rewrite (proj1 (get_bump_type_upgrade "1.9.7" "1.10.0" H)). reflexivity.
Defined.

(** X2: swapping the two versions gives the same answer only when both
    parse to the same triple, and the answer is then [unknown]; a version
    compared with itself is never a bump. *)
Theorem get_bump_type_swap (a b : string) :
  (get_bump_type a b = get_bump_type b a <-> parse_version a = parse_version b)
  /\ (parse_version a = parse_version b -> get_bump_type a b = "unknown")
  /\ get_bump_type a a = "unknown".
Proof.
  assert (Hsame : forall x y, parse_version x = parse_version y ->
                              get_bump_type x y = "unknown").
  { intros x y E. apply get_bump_type_unknown_iff. rewrite E.
    unfold Spec.componentwise_le. destruct (parse_version y) as [[y0 y1] y2]. lia. }
  split; [|split; [apply Hsame | now apply Hsame]].
  split.
  - unfold get_bump_type.
    destruct (parse_version a) as [[a0 a1] a2].
    destruct (parse_version b) as [[b0 b1] b2].
    rewrite !gtb_as_ltb.
    destruct (Z.ltb_spec a0 b0), (Z.ltb_spec b0 a0); try lia; try discriminate;
      destruct (Z.ltb_spec a1 b1), (Z.ltb_spec b1 a1); try lia; try discriminate;
      destruct (Z.ltb_spec a2 b2), (Z.ltb_spec b2 a2); try lia; try discriminate.
    intros _. repeat f_equal; lia.
  - intros E. rewrite (Hsame a b E). symmetry. apply Hsame. now symmetry.
Qed.

(** ** [split('.')] and [parse_version] *)

Lemma no_dot_cons (c : ascii) (s : string) :
  Spec.no_dot (String c s) -> Ascii.eqb c "." = false /\ Spec.no_dot s.
Proof.
  intros H. split.
  - apply Ascii.eqb_neq. apply H. now left.
  - intros d Hd. apply H. now right.
Qed.

Lemma split_parts_app (p rest : string) :
  Spec.no_dot p ->
  split_parts (p ++ String "." rest) = (p, fst (split_parts rest) :: snd (split_parts rest)).
Proof.
  induction p as [|c p IH]; intros Hp.
  - cbn. now destruct (split_parts rest).
  - apply no_dot_cons in Hp. destruct Hp as [Hc Hp].
    cbn [append split_parts]. rewrite (IH Hp), Hc. reflexivity.
Qed.

Lemma split_parts_no_dot_id (p : string) : Spec.no_dot p -> split_parts p = (p, []).
Proof.
  induction p as [|c p IH]; intros Hp; [reflexivity|].
  apply no_dot_cons in Hp. destruct Hp as [Hc Hp].
  cbn [split_parts]. rewrite (IH Hp), Hc. reflexivity.
Qed.

Lemma split_dot_app (p rest : string) :
  Spec.no_dot p -> split_dot (p ++ String "." rest) = p :: split_dot rest.
Proof.
  intros Hp. unfold split_dot. rewrite (split_parts_app _ _ Hp).
  now destruct (split_parts rest).
Qed.

(** X3: splitting undoes joining: for a non-empty list of parts that hold
    no dot, [split_dot] of the parts joined with dots is the list itself. *)
Theorem split_dot_of_join (parts : list string) :
  parts <> [] ->
  Forall Spec.no_dot parts ->
  split_dot (join "." parts) = parts.
Proof.
  intros Hne Hparts.
  induction Hparts as [|p parts Hp Hrest IH]; [now elim Hne|].
  destruct parts as [|q parts].
  - cbn [join]. unfold split_dot. now rewrite (split_parts_no_dot_id _ Hp).
  - rewrite join_cons_cons.
    change (p ++ "." ++ join "." (q :: parts))
      with (p ++ String "." (join "." (q :: parts))).
    rewrite (split_dot_app _ _ Hp), IH; [reflexivity | discriminate].
Qed.

Lemma split_dot_of_join_witness :
  ["1"; ""; "x y"] <> []
  /\ Forall Spec.no_dot ["1"; ""; "x y"]
  /\ split_dot (join "." ["1"; ""; "x y"]) = ["1"; ""; "x y"].
Proof.
  assert (Hne : ["1"; ""; "x y"] <> []) by discriminate.
  assert (Hnd : Forall Spec.no_dot ["1"; ""; "x y"]).
  { repeat constructor; intros c Hc; cbn in Hc;
      repeat (destruct Hc as [<- | Hc]; [discriminate|]); destruct Hc. }
  split; [exact Hne | split; [exact Hnd|]].
  exact (split_dot_of_join _ Hne Hnd).
Defined.

(** What being a digit excludes, by inspection of the 256 characters. *)
Lemma digit_facts (c : ascii) :
  is_digit c = true ->
  is_space c = false
  /\ Ascii.eqb c "." = false
  /\ 0 <= digit_value c <= 9
  /\ forall s, py_int (String c s)
               = ('(v, digits, rest) <- scan_digits (String c s) 0 0 false ;;
                  if Nat.eqb digits 0 then None
                  else if Nat.ltb int_max_str_digits digits then None
                  else if all_space rest then Some (1 * v)
                  else None).
Proof.
  destruct c as [[] [] [] [] [] [] [] []]; intros H;
    try (vm_compute in H; discriminate H);
    (split; [reflexivity | split; [reflexivity | split; [vm_compute; split; discriminate|]]]);
    intros s; reflexivity.
Qed.

Lemma all_digits_no_dot (s : string) : Derived.all_digits s = true -> Spec.no_dot s.
Proof.
  induction s as [|c s IH]; intros H d Hd; [destruct Hd|].
  cbn [Derived.all_digits] in H. apply andb_true_iff in H. destruct H as [Hc Hs].
  destruct Hd as [<- | Hd].
  - apply Ascii.eqb_neq. now apply digit_facts.
  - now apply IH.
Qed.

Lemma scan_all_digits (s : string) (acc : Z) (digits : nat) :
  Derived.all_digits s = true ->
  scan_digits s acc digits false
  = Some (acc * 10 ^ Z.of_nat (String.length s) + Derived.decimal_value s,
          (digits + String.length s)%nat, EmptyString).
Proof.
  revert acc digits. induction s as [|c s IH]; intros acc digits H.
  - cbn. now rewrite Z.mul_1_r, Z.add_0_r, Nat.add_0_r.
  - cbn [Derived.all_digits] in H. apply andb_true_iff in H. destruct H as [Hc Hs].
    cbn [scan_digits String.length Derived.decimal_value]. rewrite Hc, (IH _ _ Hs).
    rewrite Nat2Z.inj_succ, Z.pow_succ_r by lia.
    replace (S digits + String.length s)%nat with (digits + S (String.length s))%nat
      by lia.
    do 3 f_equal. ring.
Qed.

Lemma py_int_digit_string (s : string) :
  Derived.digit_string s -> py_int s = Some (Derived.decimal_value s).
Proof.
  intros (Hne & Hd & Hlen). destruct s as [|c s]; [now elim Hne|].
  pose proof Hd as Hd'. cbn [Derived.all_digits] in Hd'.
  apply andb_true_iff in Hd'. destruct Hd' as [Hc _].
  destruct (digit_facts c Hc) as (_ & _ & _ & Hint). rewrite Hint.
  rewrite (scan_all_digits _ 0 0 Hd). unfold bind.
  cbn [Nat.add String.length Nat.eqb].
  cbn [String.length] in Hlen.
  apply Nat.ltb_ge in Hlen. rewrite Hlen. cbn [all_space].
  f_equal. rewrite Z.mul_1_l. reflexivity.
Qed.

(** X4: a version written as one, two or three tokens of decimal digits
    (each within the length [int] accepts) parses to the values of the
    tokens, missing ones being 0; whatever follows a third dot changes
    nothing. *)
Theorem parse_version_numeric (a b c rest : string) :
  Derived.digit_string a -> Derived.digit_string b -> Derived.digit_string c ->
  parse_version a = (Derived.decimal_value a, 0, 0)
  /\ parse_version (a ++ "." ++ b)
     = (Derived.decimal_value a, Derived.decimal_value b, 0)
  /\ parse_version (a ++ "." ++ b ++ "." ++ c)
     = (Derived.decimal_value a, Derived.decimal_value b, Derived.decimal_value c)
  /\ parse_version (a ++ "." ++ b ++ "." ++ c ++ "." ++ rest)
     = (Derived.decimal_value a, Derived.decimal_value b, Derived.decimal_value c).
Proof.
  intros Ha Hb Hc.
  pose proof (py_int_digit_string a Ha) as Ia.
  pose proof (py_int_digit_string b Hb) as Ib.
  pose proof (py_int_digit_string c Hc) as Ic.
  assert (Na : Spec.no_dot a) by (apply all_digits_no_dot, Ha).
  assert (Nb : Spec.no_dot b) by (apply all_digits_no_dot, Hb).
  assert (Nc : Spec.no_dot c) by (apply all_digits_no_dot, Hc).
  assert (Sa : split_dot a = [a])
    by (unfold split_dot; now rewrite (split_parts_no_dot_id _ Na)).
  assert (Sb : split_dot b = [b])
    by (unfold split_dot; now rewrite (split_parts_no_dot_id _ Nb)).
  assert (Sc : split_dot c = [c])
    by (unfold split_dot; now rewrite (split_parts_no_dot_id _ Nc)).
  unfold parse_version, int_part, try_except, bind.
  change (a ++ "." ++ b) with (a ++ String "." b).
  change (a ++ "." ++ b ++ "." ++ c) with (a ++ String "." (b ++ String "." c)).
  change (a ++ "." ++ b ++ "." ++ c ++ "." ++ rest)
    with (a ++ String "." (b ++ String "." (c ++ String "." rest))).
  rewrite !(split_dot_app a) by assumption.
  rewrite !(split_dot_app b) by assumption.
  rewrite (split_dot_app c) by assumption.
  rewrite Sa, Sb, Sc. cbn [nth_error]. rewrite Ia, Ib, Ic.
  repeat split; reflexivity.
Qed.

Lemma parse_version_numeric_witness :
  Derived.digit_string "12" /\ Derived.digit_string "0" /\ Derived.digit_string "007"
  /\ parse_version ("12" ++ "." ++ "0" ++ "." ++ "007" ++ "." ++ "rc1.x") = (12, 0, 7).
Proof.
  assert (D : forall s, s <> "" -> Derived.all_digits s = true ->
                        (String.length s <= 10)%nat -> Derived.digit_string s).
  { intros s H1 H2 H3. repeat split; try assumption.
    apply (Nat.le_trans _ 10); [assumption|].
    apply Nat.leb_le. vm_compute. reflexivity. }
  assert (Ha : Derived.digit_string "12")
    by (apply D; [discriminate | reflexivity | cbn; lia]).
  assert (Hb : Derived.digit_string "0")
    by (apply D; [discriminate | reflexivity | cbn; lia]).
  assert (Hc : Derived.digit_string "007")
    by (apply D; [discriminate | reflexivity | cbn; lia]).
  repeat (split; [assumption|]).
  destruct (parse_version_numeric "12" "0" "007" "rc1.x" Ha Hb Hc) as (_ & _ & _ & H).
  rewrite H. reflexivity.
Defined.

Section IntChars.








End IntChars.



(** ** [check_compatibility] *)

Lemma compat_info_eq (x y : compat_info) :
  compatible x = compatible y -> incompatible x = incompatible y -> x = y.
Proof. destruct x, y. cbn. now intros -> ->. Qed.

Lemma context_entries_from_table (package context e : string) :
  In e (Spec.context_entries package context) ->
  exists service_name packages service_version,
    In (service_name, packages) COMPATIBILITY_MATRIX
    /\ get packages package = Some service_version
    /\ e = service_name ++ " uses " ++ service_version.
Proof.
  unfold Spec.context_entries.
  destruct (find _ COMPATIBILITY_MATRIX) as [[service_name packages]|] eqn:E;
    [|intros []].
  destruct (get packages package) as [service_version|] eqn:G; [|intros []].
  intros [<- | []]. exists service_name, packages, service_version.
  split; [now apply find_some in E | now split].
Qed.

(** X6: the checker lists nothing of its own: whatever the context, every
    entry of either list names a service of the matrix that uses the
    package, with the version recorded for it there. *)
Theorem check_compatibility_sound
    (package new_version e : string) (context : option string) :
  In e (compatible (check_compatibility package new_version context))
  \/ In e (incompatible (check_compatibility package new_version context)) ->
  exists service_name packages service_version,
    In (service_name, packages) COMPATIBILITY_MATRIX
    /\ get packages package = Some service_version
    /\ (e = service_name ++ " uses " ++ service_version
        \/ e = service_name ++ " uses " ++ service_version
                 ++ " (major version mismatch)").
Proof.
  destruct (check_compatibility_lists package new_version context) as [Hc Hi].
  rewrite Hc, Hi. intros [H | H].
  - apply in_app_or in H. destruct H as [H | H].
    + assert (Hn : In e (Spec.context_entries package
                           match context with Some c => c | None => "" end)).
      { unfold Spec.narrowed in H. destruct context as [c|]; [|destruct H].
        destruct (truthy c); [exact H | destruct H]. }
      destruct (context_entries_from_table _ _ _ Hn) as (s & pk & v & H1 & H2 & H3).
      exists s, pk, v. auto.
    + apply in_flat_map in H. destruct H as ([s pk] & Hin & He).
      unfold Spec.compatible_entry in He. cbn [fst snd] in He.
      destruct (get pk package) as [v|] eqn:G; [|destruct He].
      destruct (_ =? _); [|destruct He].
      destruct He as [<- | []]. exists s, pk, v. auto.
  - apply in_flat_map in H. destruct H as ([s pk] & Hin & He).
    unfold Spec.incompatible_entry in He. cbn [fst snd] in He.
    destruct (get pk package) as [v|] eqn:G; [|destruct He].
    destruct (_ <? _); [|destruct He].
    destruct He as [<- | []]. exists s, pk, v. auto.
Qed.

Lemma check_compatibility_sound_witness :
  In "User Service uses 3.0.0"
     (compatible (check_compatibility "auth-lib" "2.0.0" (Some "user service")))
  /\ exists service_name packages service_version,
       In (service_name, packages) COMPATIBILITY_MATRIX
       /\ get packages "auth-lib" = Some service_version
       /\ ("User Service uses 3.0.0" = service_name ++ " uses " ++ service_version
           \/ "User Service uses 3.0.0"
              = service_name ++ " uses " ++ service_version
                  ++ " (major version mismatch)").
Proof.
  assert (H : In "User Service uses 3.0.0"
                (compatible (check_compatibility "auth-lib" "2.0.0"
                               (Some "user service"))))
    by (left; reflexivity).
  split; [exact H|].
  exact (check_compatibility_sound "auth-lib" "2.0.0" _ (Some "user service")
           (or_introl H)).
Defined.

(** X7: the candidate version counts through its major component only:
    two candidates with the same parsed major get the same answer. *)
Theorem check_compatibility_major_only
    (package version1 version2 : string) (context : option string) :
  Spec.major_of version1 = Spec.major_of version2 ->
  check_compatibility package version1 context
  = check_compatibility package version2 context.
Proof.
  intros Hm.
  destruct (check_compatibility_lists package version1 context) as [Hc1 Hi1].
  destruct (check_compatibility_lists package version2 context) as [Hc2 Hi2].
  apply compat_info_eq.
  - rewrite Hc1, Hc2. f_equal. apply flat_map_ext. intros item.
    unfold Spec.compatible_entry. now rewrite Hm.
  - rewrite Hi1, Hi2. apply flat_map_ext. intros item.
    unfold Spec.incompatible_entry. now rewrite Hm.
Qed.

Lemma check_compatibility_major_only_witness :
  Spec.major_of "2.0.0" = Spec.major_of "2.7.13"
  /\ check_compatibility "auth-lib" "2.0.0" None
     = check_compatibility "auth-lib" "2.7.13" None.
Proof.
  assert (H : Spec.major_of "2.0.0" = Spec.major_of "2.7.13").
  { vm_compute. reflexivity. }
  split; [exact H|].
  exact (check_compatibility_major_only "auth-lib" "2.0.0" "2.7.13" None H).
Defined.




Lemma find_none_all {A : Type} (f : A -> bool) (l : list A) :
  (forall x, In x l -> f x = false) -> find f l = None.
Proof.
  induction l as [|a l IH]; intros H; [reflexivity|].
  cbn [find]. rewrite (H a (or_introl eq_refl)). apply IH.
  intros x Hx. apply H. now right.
Qed.

(** X9: a context that is empty, or in which no service name of the
    matrix occurs, changes nothing: the answer is the one given without
    context. *)
Theorem check_compatibility_context_without_match
    (package new_version context : string) :
  truthy context = false
  \/ (forall item, In item COMPATIBILITY_MATRIX ->
                   contains (lower (fst item)) (lower context) = false) ->
  check_compatibility package new_version (Some context)
  = check_compatibility package new_version None.
Proof.
  intros H.
  destruct (check_compatibility_lists package new_version (Some context)) as [Hc Hi].
  destruct (check_compatibility_lists package new_version None) as [Hc0 Hi0].
  apply compat_info_eq; [|now rewrite Hi, Hi0].
  rewrite Hc, Hc0. f_equal. unfold Spec.narrowed.
  destruct H as [-> | H]; [reflexivity|].
  destruct (truthy context); [|reflexivity].
  unfold Spec.context_entries. now rewrite (find_none_all _ _ H).
Qed.

Lemma check_compatibility_context_without_match_witness :
  (truthy "prod rollout, Billing" = false
   \/ (forall item, In item COMPATIBILITY_MATRIX ->
                    contains (lower (fst item)) (lower "prod rollout, Billing") = false))
  /\ check_compatibility "auth-lib" "3.0.0" (Some "prod rollout, Billing")
     = check_compatibility "auth-lib" "3.0.0" None.
Proof.
  assert (H : truthy "prod rollout, Billing" = false
              \/ (forall item, In item COMPATIBILITY_MATRIX ->
                               contains (lower (fst item))
                                 (lower "prod rollout, Billing") = false)).
  { right. intros item [<- | [<- | [<- | []]]]; reflexivity. }
  split; [exact H|].
  exact (check_compatibility_context_without_match "auth-lib" "3.0.0" _ H).
Defined.

(** Evaluate the recorded versions of the matrix. *)
Ltac eval_recorded_majors :=
  repeat match goal with
         | |- context [Spec.major_of (String ?a ?s)] =>
             let v := eval vm_compute in (Spec.major_of (String a s)) in
             change (Spec.major_of (String a s)) with v
         end.

(** X10: every service of the matrix records a major of at least 1, so a
    candidate whose parsed major is below 1, as for any version that does
    not parse, is compared with nothing: both lists of the full scan are
    empty, for every package. *)
Theorem check_compatibility_low_major (package new_version : string) :
  Spec.major_of new_version < 1 ->
  check_compatibility package new_version None
  = {| compatible := []; incompatible := [] |}.
Proof.
  intros Hlow.
  destruct (check_compatibility_lists package new_version None) as [Hc Hi].
  apply compat_info_eq; [rewrite Hc | rewrite Hi];
    unfold COMPATIBILITY_MATRIX, Spec.compatible_entry, Spec.incompatible_entry;
    cbn [Spec.narrowed flat_map fst snd get app compatible incompatible];
    repeat match goal with
           | |- context [String.eqb package ?k] => destruct (String.eqb package k)
           end;
    eval_recorded_majors;
    repeat match goal with
           | |- context [?a =? ?b] => destruct (Z.eqb_spec a b); try lia
           | |- context [?a <? ?b] => destruct (Z.ltb_spec a b); try lia
           end;
    reflexivity.
Qed.

Lemma check_compatibility_low_major_witness :
  Spec.major_of "v2.2.0" < 1
  /\ check_compatibility "auth-lib" "v2.2.0" None
     = {| compatible := []; incompatible := [] |}.
Proof.
  assert (H : Spec.major_of "v2.2.0" < 1) by (vm_compute; reflexivity).
  split; [exact H|].
  exact (check_compatibility_low_major "auth-lib" "v2.2.0" H).
Defined.

(** ** [explain_version_choice] *)

Section Explanation.

Variables package old_version new_version ecosystem : string.
Variable context : option string.

Lemma explain_risk_reasoning :
  exists b,
    Spec.bump_of_string (get_bump_type old_version new_version) = Some b
    /\ risk_reasoning
         (explain_version_choice package old_version new_version ecosystem context)
       = Derived.risk_rule b old_version new_version
           (fst (check_internal_incidents package old_version new_version))
           (snd (check_internal_incidents package old_version new_version)).
Proof.
  open_explain oi ni a b. cbn [risk_reasoning fst snd].
  unfold get_bump_type.
  destruct (parse_version old_version) as [[o0 o1] o2].
  destruct (parse_version new_version) as [[n0 n1] n2].
  destruct (n0 >? o0); [exists Spec.Major; destruct a, b; split; reflexivity|].
  destruct (n1 >? o1); [exists Spec.Minor; destruct a, b; split; reflexivity|].
  destruct (n2 >? o2); [exists Spec.Patch | exists Spec.Unknown];
    destruct a, b; split; reflexivity.
Qed.

End Explanation.

(** X11: the risk reasoning is the baseline line of the bump type, then
    the line on the old version's incidents iff it has some, then the
    warning on the new version's incidents iff it has some: one to three
    lines. *)
Theorem risk_reasoning_rule
    (package old_version new_version ecosystem : string) (context : option string) :
  (exists b,
      Spec.bump_of_string (get_bump_type old_version new_version) = Some b
      /\ risk_reasoning
           (explain_version_choice package old_version new_version ecosystem context)
         = Derived.risk_rule b old_version new_version
             (fst (check_internal_incidents package old_version new_version))
             (snd (check_internal_incidents package old_version new_version)))
  /\ (1 <= List.length
             (risk_reasoning
                (explain_version_choice package old_version new_version ecosystem
                   context)) <= 3)%nat.
Proof.
  destruct (explain_risk_reasoning package old_version new_version ecosystem context)
    as (b & Hb & Hr).
  split; [now exists b|].
  rewrite Hr. unfold Derived.risk_rule.
  destruct (fst _), (snd _); cbn; lia.
Qed.

Example risk_reasoning_values :
  risk_reasoning (explain_version_choice "logging-lib" "1.5.0" "1.5.1" "pip" None)
  = [Spec.risk_baseline Spec.Patch]
  /\ risk_reasoning (explain_version_choice "payments-core" "3.1.0" "3.2.0" "pip" None)
     = [Spec.risk_baseline Spec.Minor; Derived.new_incidents_line "3.2.0"]
  /\ risk_reasoning (explain_version_choice "auth-lib" "2.0.0" "3.0.0" "pip" None)
     = [Spec.risk_baseline Spec.Major; Derived.old_incidents_line "2.0.0"].
Proof. repeat split; reflexivity. Qed.

(** X12: the compatibility reasoning is the line of the compatible
    entries iff there are some, then the line of the incompatible entries
    iff there are some, and the no-data line iff there are neither. *)
Theorem compatibility_reasoning_rule
    (package old_version new_version ecosystem : string) (context : option string) :
  let info := check_compatibility package new_version context in
  compatibility_reasoning
    (explain_version_choice package old_version new_version ecosystem context)
  = (match compatible info with
     | _ :: _ => [Spec.compatible_line (compatible info)]
     | [] => []
     end
     ++ match incompatible info with
        | _ :: _ => [Spec.incompatible_line (incompatible info)]
        | [] => []
        end
     ++ match compatible info, incompatible info with
        | [], [] => [Spec.no_data_line package]
        | _, _ => []
        end)%list.
Proof.
  intros info. subst info. rewrite explain_compatibility_reasoning.
  destruct (compatible _), (incompatible _); reflexivity.
Qed.

(** X13: the citations agree with the reasoning: the compatibility matrix
    is cited exactly when the compatibility reasoning is not the no-data
    line, and the security advisories exactly when the security reasoning
    holds the line of the old version's vulnerabilities. *)
Theorem sources_agree_with_reasoning
    (package old_version new_version ecosystem : string) (context : option string) :
  let result :=
    explain_version_choice package old_version new_version ecosystem context in
  (In "Internal compatibility matrix" (sources result)
   <-> ~ In (Spec.no_data_line package) (compatibility_reasoning result))
  /\ (In ("Security advisories for " ++ package ++ " " ++ old_version) (sources result)
      <-> In (Spec.vulnerabilities_line old_version
                (fst (check_security_issues package old_version new_version)))
             (security_reasoning result)).
Proof.
  intros result. subst result.
  rewrite explain_sources, explain_compatibility_reasoning, explain_security_reasoning.
  unfold Spec.sources_rule, Spec.security_rule.
  destruct (String.eqb (Spec.notes_found package new_version) _);
    destruct (fst (check_security_issues package old_version new_version)) as [|i oi];
    destruct (snd (check_security_issues package old_version new_version)) as [|j ni];
    destruct (fst (check_internal_incidents package old_version new_version));
    destruct (compatible _), (incompatible _);
    cbn [negb List.length Nat.eqb Nat.add filter map fst snd In app];
    (split; split; intros H;
     repeat match goal with
            | H : _ \/ _ |- _ => destruct H as [H | H]
            | H : False |- _ => destruct H
            | H : _ = _ |- _ => discriminate H
            | |- ~ _ => intros ?
            | H : ~ _ |- _ => solve [elim H; auto]
            end; auto 6).
Qed.

Section UnknownPackage.

Variable package : string.
Hypothesis not_auth : package <> "auth-lib".
Hypothesis not_payments : package <> "payments-core".
Hypothesis not_logging : package <> "logging-lib".

Ltac forget_package :=
  rewrite ?(proj2 (String.eqb_neq _ _) not_auth),
          ?(proj2 (String.eqb_neq _ _) not_payments),
          ?(proj2 (String.eqb_neq _ _) not_logging).

Lemma unknown_package_lookups (old_version new_version : string) :
  Spec.notes_found package new_version = "No release notes available."
  /\ check_security_issues package old_version new_version = ([], [])
  /\ check_internal_incidents package old_version new_version = ([], []).
Proof.
  unfold Spec.notes_found, check_security_issues, check_internal_incidents,
    get_default, RELEASE_METADATA, KNOWN_ISSUES, INTERNAL_INCIDENTS.
  cbn [get]. forget_package. cbn [get]. repeat split.
Qed.

Lemma unknown_package_compatibility (new_version : string) (context : option string) :
  check_compatibility package new_version context
  = {| compatible := []; incompatible := [] |}.
Proof.
  destruct (check_compatibility_lists package new_version context) as [Hc Hi].
  apply compat_info_eq; [rewrite Hc | rewrite Hi]; cbn [compatible incompatible].
  - unfold Spec.narrowed, Spec.context_entries, Spec.compatible_entry,
      COMPATIBILITY_MATRIX.
    cbn [flat_map find fst snd get]. forget_package. cbn [app].
    destruct context as [c|]; [|reflexivity].
    destruct (truthy c); [|reflexivity].
    repeat match goal with
           | |- context [contains ?a ?b] => destruct (contains a b)
           end; cbn [get]; forget_package; reflexivity.
  - unfold Spec.incompatible_entry, COMPATIBILITY_MATRIX.
    cbn [flat_map fst snd get]. forget_package. reflexivity.
Qed.

End UnknownPackage.

(** X14: a package that none of the tables knows is still answered, with
    the default texts: the default release notes, no source, the
    no-known-issues line, the no-compatibility-data line and the baseline
    risk line alone, whatever the versions and the context. *)
Theorem unknown_package_explanation
    (package old_version new_version ecosystem : string) (context : option string) :
  package <> "auth-lib" -> package <> "payments-core" -> package <> "logging-lib" ->
  let result :=
    explain_version_choice package old_version new_version ecosystem context in
  release_notes result = "No release notes available."
  /\ sources result = []
  /\ security_reasoning result = [Spec.no_issues_line old_version]
  /\ compatibility_reasoning result = [Spec.no_data_line package]
  /\ exists b,
       Spec.bump_of_string (bump_type result) = Some b
       /\ risk_reasoning result = [Spec.risk_baseline b].
Proof.
  intros H1 H2 H3 result. subst result.
  destruct (unknown_package_lookups package H1 H2 H3 old_version new_version)
    as (Hn & Hs & Hi).
  pose proof (unknown_package_compatibility package H1 H2 H3 new_version context) as Hc.
  rewrite explain_release_notes, explain_sources, explain_security_reasoning,
    explain_compatibility_reasoning, explain_bump_type.
  rewrite Hn, Hs, Hi, Hc. cbn [fst snd compatible incompatible].
  repeat (split; [reflexivity|]).
  destruct (explain_risk_reasoning package old_version new_version ecosystem context)
    as (b & Hb & Hr).
  exists b. split; [exact Hb|]. rewrite Hr, Hi. reflexivity.
Qed.

Lemma unknown_package_explanation_witness :
  "left-pad" <> "auth-lib" /\ "left-pad" <> "payments-core"
  /\ "left-pad" <> "logging-lib"
  /\ sources (explain_version_choice "left-pad" "1.0.0" "2.0.0" "npm"
                (Some "Checkout Service")) = []
  /\ compatibility_reasoning
       (explain_version_choice "left-pad" "1.0.0" "2.0.0" "npm"
          (Some "Checkout Service"))
     = [Spec.no_data_line "left-pad"].
Proof.
  assert (H1 : "left-pad" <> "auth-lib") by discriminate.
  assert (H2 : "left-pad" <> "payments-core") by discriminate.
  assert (H3 : "left-pad" <> "logging-lib") by discriminate.
  repeat (split; [assumption|]).
  pose proof (unknown_package_explanation "left-pad" "1.0.0" "2.0.0" "npm"
                (Some "Checkout Service") H1 H2 H3) as H.
  cbv zeta in H. destruct H as (_ & Hs & _ & Hc & _).
  split; assumption.
Defined.

(** ** [format_explanation] *)

Lemma append_bullets (items lines : list string) :
  fold_left (fun lines item => list_append lines ("- " ++ item)) items lines
  = (lines ++ Derived.bullets items)%list.
Proof.
  revert lines. induction items as [|item items IH]; intros lines.
  - cbn. now rewrite app_nil_r.
  - cbn [fold_left Derived.bullets map]. rewrite IH. unfold list_append.
    now rewrite <- app_assoc.
Qed.

Lemma bullet_section_lines (lines : list string) (header : string)
    (items : list string) (blank : bool) :
  bullet_section lines header items blank
  = (lines ++ Derived.section header items blank)%list.
Proof.
  unfold bullet_section, Derived.section.
  destruct items as [|item items]; [cbn; now rewrite app_nil_r|].
  cbn [nonempty]. rewrite append_bullets. unfold list_append.
  destruct blank; rewrite <- ?app_assoc; cbn [app]; [reflexivity|].
  now rewrite app_nil_r.
Qed.

Lemma format_explanation_layout (e : explanation) :
  format_explanation e = join newline (Derived.layout e).
Proof.
  unfold format_explanation, Derived.layout.
  rewrite !bullet_section_lines. unfold list_append. cbn [app].
  now rewrite <- !app_assoc.
Qed.

(** X15: the formatted answer is the lines of the layout joined by line
    feeds: summary, release notes, then each section that has items, in
    the order risk, security, compatibility, sources.  On the result of
    [explain_version_choice] the first three sections are always there;
    only the sources can be missing. *)
Theorem format_explanation_sections :
  (forall e, format_explanation e = join newline (Derived.layout e))
  /\ (forall (package old_version new_version ecosystem : string)
             (context : option string),
         let result :=
           explain_version_choice package old_version new_version ecosystem context in
         format_explanation result
         = join newline
             ([ ("**Summary:** " ++ summary result)%string; "";
                ("**Release Notes:** " ++ release_notes result)%string; "" ]
              ++ ("**Risk Assessment:**"
                  :: Derived.bullets (risk_reasoning result) ++ [""])
              ++ ("**Security Considerations:**"
                  :: Derived.bullets (security_reasoning result) ++ [""])
              ++ ("**Compatibility:**"
                  :: Derived.bullets (compatibility_reasoning result) ++ [""])
              ++ Derived.section "**Sources:**" (sources result) false)%list).
Proof.
  split; [exact format_explanation_layout|].
  intros package old_version new_version ecosystem context result. subst result.
  rewrite format_explanation_layout. unfold Derived.layout. f_equal.
  destruct (explain_summary package old_version new_version ecosystem context)
    as (b & _ & _ & Hr).
  pose proof (explain_security_reasoning package old_version new_version ecosystem
                context) as Hs.
  pose proof (explain_compatibility_reasoning package old_version new_version ecosystem
                context) as Hc.
  destruct (risk_reasoning _) as [|r rs]; [discriminate Hr|].
  destruct (security_reasoning _) as [|s ss].
  { unfold Spec.security_rule in Hs.
    destruct (fst (check_security_issues package old_version new_version));
      discriminate Hs. }
  destruct (compatibility_reasoning _) as [|c cs].
  { destruct (compatible _), (incompatible _); discriminate Hc. }
  reflexivity.
Qed.

Example format_explanation_value :
  format_explanation
    {| summary := "S"; risk_reasoning := []; security_reasoning := ["a"; "b"];
       compatibility_reasoning := []; release_notes := "N"; bump_type := "patch";
       sources := ["x"] |}
  = join newline
      ["**Summary:** S"; ""; "**Release Notes:** N"; "";
       "**Security Considerations:**"; "- a"; "- b"; ""; "**Sources:**"; "- x"].
Proof. reflexivity. Qed.

(** ** The conversation log *)

Lemma paired_app_both (l1 l2 : list message) :
  (Derived.paired l1 = true -> Derived.paired (l1 ++ l2) = Derived.paired l2)
  /\ (forall x, Derived.paired (x :: l1) = true ->
                Derived.paired ((x :: l1) ++ l2) = Derived.paired l2).
Proof.
  induction l1 as [|a l1 [IH1 IH2]].
  - split; [reflexivity | discriminate].
  - split; [intros H; now apply IH2|].
    intros x H. cbn [Derived.paired app] in H |- *.
    apply andb_true_iff in H. destruct H as [Hroles Hrest].
    rewrite Hroles, (IH1 Hrest). reflexivity.
Qed.

Lemma handle_explain_cases (w : widgets) (messages : list message) :
  handle_explain w messages = (messages, [Spec.validation_error])
  \/ handle_explain w messages
     = ((messages
         ++ [ {| role := "user"; content := Derived.user_query w |};
              {| role := "assistant";
                 content :=
                   format_explanation
                     (explain_version_choice (package w) (old_version w)
                        (new_version w) (ecosystem w)
                        (if truthy (context w) then Some (context w) else None)) |} ])%list,
        [st_rerun]).
Proof.
  unfold handle_explain, Derived.user_query.
  destruct (negb (truthy (package w)) || negb (truthy (old_version w))
            || negb (truthy (new_version w)))%bool; [now left|].
  right. unfold list_append. rewrite <- app_assoc. cbn [app].
  destruct (context w) as [|c ctx]; reflexivity.
Qed.

Lemma truthy_false (s : string) : truthy s = false <-> s = "".
Proof. destruct s; cbn; split; intros H; (reflexivity || discriminate H). Qed.

(** X16: the submit handler only appends: the log it returns is the log
    it was given followed by nothing, exactly when a required field is
    empty, or else by the question of the user and the answer of the
    assistant, in this order; no earlier entry is changed or removed. *)
Theorem handle_explain_append_only (w : widgets) (messages : list message) :
  exists suffix,
    fst (handle_explain w messages) = (messages ++ suffix)%list
    /\ (suffix = [] <-> package w = "" \/ old_version w = "" \/ new_version w = "")
    /\ (suffix <> [] ->
        exists answer,
          suffix = [ {| role := "user"; content := Derived.user_query w |};
                     {| role := "assistant"; content := answer |} ]).
Proof.
  destruct (truthy (package w) && truthy (old_version w) && truthy (new_version w))%bool
    eqn:E.
  - apply andb_true_iff in E. destruct E as [E En].
    apply andb_true_iff in E. destruct E as [Ep Eo].
    destruct (handle_explain_cases w messages) as [H | H].
    + exfalso. unfold handle_explain in H. rewrite Ep, Eo, En in H.
      cbn [negb orb] in H. discriminate H.
    + rewrite H. cbn [fst]. eexists. split; [reflexivity|]. split.
      * split; [discriminate|].
        intros [F | [F | F]]; apply truthy_false in F; congruence.
      * intros _. eexists. reflexivity.
  - exists []. rewrite app_nil_r.
    assert (Hmissing : package w = "" \/ old_version w = "" \/ new_version w = "").
    { rewrite <- !truthy_false.
      destruct (truthy (package w)), (truthy (old_version w)), (truthy (new_version w));
        auto; discriminate E. }
    unfold handle_explain. rewrite (missing_field_test w Hmissing). cbn [fst].
    split; [reflexivity|]. split; [now split | intros F; now elim F].
Qed.

Lemma main_step_paired (w : widgets) (log : list message) :
  Derived.paired log = true -> Derived.paired (fst (main w (Some log))) = true.
Proof.
  intros Hlog. unfold main.
  destruct (explain_button w).
  - destruct (handle_explain_cases w log) as [H | H]; rewrite H.
    + cbn [existsb Spec.validation_error orb].
      destruct (nonempty log && clear_button w)%bool; [reflexivity | exact Hlog].
    + cbn [existsb orb fst].
      rewrite (proj1 (paired_app_both log _) Hlog). reflexivity.
  - cbn [existsb].
    destruct (nonempty log && clear_button w)%bool; [reflexivity | exact Hlog].
Qed.

(** X17: through any sequence of runs of [main] that starts without a
    session, whatever the widgets hold in each run, the log is a sequence
    of pairs: a question of the user followed by an answer of the
    assistant. *)
Theorem log_stays_paired (first : widgets) (runs : list widgets) :
  Derived.paired
    (fold_left (fun log w => fst (main w (Some log))) runs (fst (main first None)))
  = true.
Proof.
  assert (Hstart : Derived.paired (fst (main first None)) = true).
  { change (main first None) with (main first (Some [])).
    now apply main_step_paired. }
  revert Hstart. generalize (fst (main first None)) as log.
  induction runs as [|w runs IH]; intros log Hlog; [exact Hlog|].
  cbn [fold_left]. apply IH. now apply main_step_paired.
Qed.

(** X18: the clear button empties a non-empty log and asks for a rerun;
    it is not there for an empty log; a run in which no button was pressed
    leaves the log as it is and shows nothing; and a valid submission is
    handled without the clear button being looked at. *)
Theorem main_buttons (w : widgets) (log : list message) :
  (explain_button w = false -> clear_button w = true -> log <> [] ->
   main w (Some log) = ([], [st_rerun]))
  /\ (explain_button w = false -> main w (Some []) = ([], []))
  /\ (explain_button w = false -> clear_button w = false ->
      main w (Some log) = (log, []))
  /\ (explain_button w = true ->
      package w <> "" -> old_version w <> "" -> new_version w <> "" ->
      main w (Some log) = handle_explain w log
      /\ snd (main w (Some log)) = [st_rerun]).
Proof.
  split; [|split; [|split]].
  - intros He Hc Hne. unfold main. rewrite He, Hc.
    destruct log; [now elim Hne | reflexivity].
  - intros He. unfold main. rewrite He. reflexivity.
  - intros He Hc. unfold main. rewrite He, Hc. cbn [existsb].
    now rewrite andb_false_r.
  - intros He Hp Ho Hn.
    assert (H : handle_explain w log
                = (fst (handle_explain w log), [st_rerun])).
    { destruct (handle_explain_cases w log) as [H | H]; rewrite H; [|reflexivity].
      exfalso. unfold handle_explain in H.
      destruct (truthy (package w)) eqn:Ep;
        [|apply truthy_false in Ep; contradiction].
      destruct (truthy (old_version w)) eqn:Eo;
        [|apply truthy_false in Eo; contradiction].
      destruct (truthy (new_version w)) eqn:En;
        [|apply truthy_false in En; contradiction].
      cbn [negb orb] in H. discriminate H. }
    unfold main. rewrite He, H. cbn [existsb orb snd]. split; reflexivity.
Qed.

(** ** The case of the context *)

Lemma lower_char_idempotent (c : ascii) : lower_char (lower_char c) = lower_char c.
Proof. destruct c as [[] [] [] [] [] [] [] []]; reflexivity. Qed.

Lemma lower_idempotent (s : string) : lower (lower s) = lower s.
Proof.
  induction s as [|c s IH]; [reflexivity|].
  cbn [lower]. now rewrite lower_char_idempotent, IH.
Qed.

Lemma truthy_lower (s : string) : truthy (lower s) = truthy s.
Proof. now destruct s. Qed.

(** X19: the case of the letters of the context does not count: two
    contexts with the same lower-case form, such as a context and its own
    lower-case form, get the same answer. *)
Theorem check_compatibility_context_case
    (package new_version context1 context2 : string) :
  lower context1 = lower context2 ->
  check_compatibility package new_version (Some context1)
  = check_compatibility package new_version (Some context2)
  /\ check_compatibility package new_version (Some (lower context1))
     = check_compatibility package new_version (Some context1).
Proof.
  intros Hsame.
  assert (H : forall c1 c2, lower c1 = lower c2 ->
                            check_compatibility package new_version (Some c1)
                            = check_compatibility package new_version (Some c2)).
  { intros c1 c2 E. unfold check_compatibility.
    rewrite <- (truthy_lower c1), <- (truthy_lower c2), E. reflexivity. }
  split; [now apply H|]. apply H. apply lower_idempotent.
Qed.

Lemma check_compatibility_context_case_witness :
  lower "CHECKOUT service" = lower "Checkout Service"
  /\ check_compatibility "payments-core" "4.0.0" (Some "CHECKOUT service")
     = check_compatibility "payments-core" "4.0.0" (Some "Checkout Service").
Proof.
  assert (H : lower "CHECKOUT service" = lower "Checkout Service") by reflexivity.
  split; [exact H|].
  exact (proj1 (check_compatibility_context_case "payments-core" "4.0.0" _ _ H)).
Defined.
